(** * web-socket-router: a shallow embedding of [src/Client.js]

    The development follows the source file from the bottom up:

    - the JavaScript values that travel through the router, with the
      conversions the source relies on ([ToString], truthiness, property
      reads);
    - the [RegExp] fragment that [Router.prototype.routify] generates,
      with its constructor (a parser) and [exec] (a backtracking matcher);
    - the host: clock, timers, console, and the store of the objects
      that the caller, the callbacks and the queue share;
    - the [ConnectionHandler] (connect, reconnect, flush, send) over an
      abstract socket and an explicit event loop (clock and timers);
    - the [Router] (registration, filters, dispatch, runner, send hooks),
      over the callbacks of the caller, which run on the router itself.

    Statements about the program come after the definitions. *)

From Stdlib Require Import String Ascii List ZArith Bool Arith Lia.
From Stdlib Require Import DecimalString.
Import ListNotations.

Local Open Scope string_scope.
Local Open Scope list_scope.

Set Implicit Arguments.
Set Warnings "-register-all".


(* ================================================================== *)
(** * JavaScript values and completions *)
(* ================================================================== *)

(** The values that reach the router: what [JSON.parse] produces, plus
    [undefined] (a missing property) and BigInt (a value a caller can put
    in an outbound message, and which [JSON.stringify] refuses).
    [VNum] carries integral Numbers only. Functions are not values of
    this type: callbacks are modelled apart ([callable], below). A value
    of this type is the content of an object at one moment; an object
    that several parties hold lives in the store ([ref], below). *)
Inductive jsval : Type :=
| VUndefined
| VNull
| VBool (b : bool)
| VNum (z : Z)
| VBigInt (z : Z)
| VStr (s : string)
| VArr (elems : list jsval)
| VObj (props : list (string * jsval)).

Inductive error_kind : Type :=
| TypeError | SyntaxError | ReferenceError | InvalidStateError | UserError.

(** An [Error] object, with the text of its [stack]. *)
Record Error : Type := mkError { ename : error_kind; stack : string }.

(** What a [throw] statement throws and a [catch] clause receives: an
    [Error] object (all the errors the language itself raises are), or
    any other value ([throw null], [throw "text"], [throw {code: 3}]). *)
Inductive thrown : Type :=
| ErrorObject (e : Error)
| Value (v : jsval).

Coercion ErrorObject : Error >-> thrown.

(** The outcome of evaluating a piece of the program. [Unmodelled] marks an
    input outside the fragment of JavaScript embedded here; [Running]
    is a loop that has not ended within the steps it was allowed. Neither
    is caught by a [try], and no statement below takes one for a
    result. *)
Inductive result (A : Type) : Type :=
| Normal (a : A)
| Throw (e : thrown)
| Unmodelled
| Running.

Arguments Normal {A} a.
Arguments Throw {A} e.
Arguments Unmodelled {A}.
Arguments Running {A}.

Definition rbind {A B} (r : result A) (k : A -> result B) : result B :=
  match r with
  | Normal a => k a
  | Throw e => Throw e
  | Unmodelled => Unmodelled
  | Running => Running
  end.

Declare Scope js_scope.
Delimit Scope js_scope with js.
Notation "'let!' x ':=' r 'in' k" := (rbind r (fun x => k))
  (at level 10, x name, r at level 100, k at level 200) : js_scope.
Local Open Scope js_scope.

Definition type_error (what : string) : Error := mkError TypeError ("TypeError: " ++ what)%string.

Definition string_of_Z (z : Z) : string := NilZero.string_of_int (Z.to_int z).
Definition string_of_nat (i : nat) : string := NilZero.string_of_uint (Nat.to_uint i).

Fixpoint assoc {A} (key : string) (ps : list (string * A)) : option A :=
  match ps with
  | [] => None
  | (k, v) :: ps' => if String.eqb k key then Some v else assoc key ps'
  end.

Definition has_key {A} (key : string) (ps : list (string * A)) : bool :=
  match assoc key ps with Some _ => true | None => false end.

(** The abstract operation ToString, as [RegExp.prototype.exec] applies it
    to its argument. Numbers print in decimal below 10^21 (beyond, the
    language switches to exponent notation). An object whose own
    [toString] is not callable cannot be converted. *)
Fixpoint ToString (v : jsval) : result string :=
  match v with
  | VUndefined => Normal "undefined"
  | VNull => Normal "null"
  | VBool b => Normal (if b then "true" else "false")
  | VNum z =>
      if (Z.abs z <? 10 ^ 21)%Z then Normal (string_of_Z z) else Unmodelled
  | VBigInt z => Normal (string_of_Z z)
  | VStr s => Normal s
  | VArr elems =>
      (fix join (l : list jsval) (first : bool) : result string :=
         match l with
         | [] => Normal ""
         | x :: l' =>
             let! sx := match x with
                        | VUndefined | VNull => Normal ""
                        | _ => ToString x
                        end in
             let! rest := join l' false in
             Normal ((if first then "" else ",") ++ sx ++ rest)%string
         end) elems true
  | VObj props =>
      if has_key "toString" props
      then Throw (type_error "Cannot convert object to primitive value")
      else Normal "[object Object]"
  end.

(** A member is read on [undefined] or [null]. *)
Definition cannot_read (v : jsval) (key : string) : Error :=
  type_error ("Cannot read properties of "
              ++ match v with VNull => "null" | _ => "undefined" end
              ++ " (reading '" ++ key ++ "')")%string.

(** The method call [v.toString()]. *)
Definition toString_method (v : jsval) : result string :=
  match v with
  | VUndefined | VNull => Throw (cannot_read v "toString")
  | VObj props =>
      if has_key "toString" props
      then Throw (type_error "toString is not a function")
      else Normal "[object Object]"
  | _ => ToString v
  end.

(** ToBoolean. *)
Definition truthy (v : jsval) : bool :=
  match v with
  | VUndefined | VNull => false
  | VBool b => b
  | VNum z | VBigInt z => negb (z =? 0)%Z
  | VStr s => negb (String.eqb s "")
  | VArr _ | VObj _ => true
  end.

Fixpoint indexed {A} (i : nat) (l : list A) : list (string * A) :=
  match l with
  | [] => []
  | x :: l' => (string_of_nat i, x) :: indexed (S i) l'
  end.

Fixpoint chars_of (s : string) : list jsval :=
  match s with
  | EmptyString => []
  | String c s' => VStr (String c EmptyString) :: chars_of s'
  end.

(** Own enumerable properties, in the order [Object.keys] lists them
    (objects are kept in insertion order; their keys are assumed distinct
    and not integer-like). *)
Definition own_enumerable (v : jsval) : list (string * jsval) :=
  match v with
  | VObj props => props
  | VArr elems => indexed 0 elems
  | VStr s => indexed 0 (chars_of s)
  | _ => []
  end.

Definition Object_keys (v : jsval) : list string := map fst (own_enumerable v).

Definition own_length (v : jsval) : list (string * jsval) :=
  match v with
  | VArr elems => [("length", VNum (Z.of_nat (List.length elems)))]
  | VStr s => [("length", VNum (Z.of_nat (String.length s)))]
  | _ => []
  end.

(** The property read [v[key]]: own properties only. Members inherited
    from the built-in prototypes are functions, which [jsval] does not
    represent; keys that name them are outside the model. *)
Definition get (v : jsval) (key : string) : result jsval :=
  match v with
  | VUndefined | VNull => Throw (cannot_read v key)
  | _ =>
      match assoc key (own_enumerable v ++ own_length v) with
      | Some x => Normal x
      | None => Normal VUndefined
      end
  end.

(* ================================================================== *)
(** * Regular expressions: the fragment [routify] can produce *)
(* ================================================================== *)

Module RegExp.

(** Abstract syntax of a pattern. Character classes list their members
    (no ranges). *)
Inductive regex : Type :=
| Empty
| Chr (c : ascii)
| Any
| Class (negated : bool) (members : list ascii)
| Bol
| Eol
| Seq (r1 r2 : regex)
| Alt (r1 r2 : regex)
| Star (r : regex)
| Plus (r : regex)
| Opt (r : regex).

(** ** [exec]: backtracking matcher

    A matcher takes the position (are we at index 0, and what is left of
    the input) and a continuation, as in the language definition. Only
    the existence of a match is kept: every caller in the source uses the
    result of [exec] as a condition. *)
Definition cont := bool -> list ascii -> bool.
Definition matcher := bool -> list ascii -> cont -> bool.

Definition is_line_terminator (c : ascii) : bool :=
  Ascii.eqb c "010"%char || Ascii.eqb c "013"%char.

Definition mem_ascii (c : ascii) (l : list ascii) : bool := existsb (Ascii.eqb c) l.

Definition one_char (ok : ascii -> bool) : matcher :=
  fun _ s k =>
    match s with
    | [] => false
    | x :: s' => if ok x then k false s' else false
    end.

(** Greedy repetition, zero or more times; an iteration that consumes
    nothing is refused, so [fuel = length s] iterations are enough. *)
Fixpoint repeat_matcher (body : matcher) (fuel : nat) : matcher :=
  fun bos s k =>
    match fuel with
    | O => k bos s
    | S fuel' =>
        body bos s
          (fun bos' s' =>
             if (List.length s' <? List.length s)%nat
             then repeat_matcher body fuel' bos' s' k
             else false)
        || k bos s
    end.

Fixpoint compile_matcher (r : regex) : matcher :=
  match r with
  | Empty => fun bos s k => k bos s
  | Chr c => one_char (Ascii.eqb c)
  | Any => one_char (fun x => negb (is_line_terminator x))
  | Class negated members => one_char (fun x => xorb negated (mem_ascii x members))
  | Bol => fun bos s k => if bos then k bos s else false
  | Eol => fun bos s k => match s with [] => k bos s | _ :: _ => false end
  | Seq r1 r2 =>
      fun bos s k => compile_matcher r1 bos s (fun bos' s' => compile_matcher r2 bos' s' k)
  | Alt r1 r2 =>
      fun bos s k => compile_matcher r1 bos s k || compile_matcher r2 bos s k
  | Star r1 =>
      fun bos s k => repeat_matcher (compile_matcher r1) (List.length s) bos s k
  | Plus r1 =>
      fun bos s k =>
        compile_matcher r1 bos s
          (fun bos' s' => repeat_matcher (compile_matcher r1) (List.length s') bos' s' k)
  | Opt r1 =>
      fun bos s k => compile_matcher r1 bos s k || k bos s
  end.

Definition accept : cont := fun _ _ => true.

(** [exec] without the global or sticky flag: try every start index from
    0 on. *)
Fixpoint search_from (r : regex) (bos : bool) (s : list ascii) : bool :=
  compile_matcher r bos s accept
  || match s with
     | [] => false
     | _ :: s' => search_from r false s'
     end.

Definition test (r : regex) (s : string) : bool :=
  search_from r true (list_ascii_of_string s).

Definition exec (r : regex) (v : jsval) : result bool :=
  let! s := ToString v in Normal (test r s).

(** ** [new RegExp(source, '')]: the pattern parser

    One pass over the pattern text, with a stack of open groups. *)
Inductive last_term : Type :=
| NoTerm | GroupOpen | IsAssertion | IsAtom | IsQuantified | IsLazy.

Record frame : Type := mkFrame {
  alts : list regex;      (* finished alternatives, first to last *)
  cur : list regex        (* terms of the current alternative, last first *)
}.

Inductive pmode : Type :=
| PNormal
| PEscape
| PClassOpen
| PClass (negated : bool) (members : list ascii)
| PClassEscape (negated : bool) (members : list ascii).

Record pstate : Type := mkPstate {
  mode : pmode;
  top : frame;
  open_groups : list frame;
  last : last_term
}.

Inductive presult : Type :=
| POk (st : pstate)
| PSyntaxError (why : string)
| PUnsupported.

Fixpoint seq_of (ts : list regex) : regex :=
  match ts with
  | [] => Empty
  | t :: ts' => Seq t (seq_of ts')
  end.

Fixpoint alt_of (r : regex) (rs : list regex) : regex :=
  match rs with
  | [] => r
  | r' :: rs' => Alt r (alt_of r' rs')
  end.

Definition close_frame (f : frame) : regex :=
  match alts f ++ [seq_of (rev (cur f))] with
  | [] => Empty
  | r :: rs => alt_of r rs
  end.

Definition push_term (t : regex) (l : last_term) (st : pstate) : pstate :=
  mkPstate PNormal (mkFrame (alts (top st)) (t :: cur (top st))) (open_groups st) l.

Definition quantify (q : regex -> regex) (st : pstate) : presult :=
  match last st, cur (top st) with
  | IsAtom, t :: ts =>
      POk (mkPstate PNormal (mkFrame (alts (top st)) (q t :: ts)) (open_groups st) IsQuantified)
  | _, _ => PSyntaxError "Nothing to repeat"
  end.

Definition is_alnum (c : ascii) : bool :=
  let n := nat_of_ascii c in
  ((48 <=? n) && (n <=? 57) || (65 <=? n) && (n <=? 90) || (97 <=? n) && (n <=? 122))%nat.

Definition in_class (negated : bool) (members : list ascii) (c : ascii) (st : pstate) : presult :=
  if Ascii.eqb c "]" then POk (push_term (Class negated members) IsAtom st)
  else if Ascii.eqb c "\" then
    POk (mkPstate (PClassEscape negated members) (top st) (open_groups st) (last st))
  else if Ascii.eqb c "-" then
    match members with
    | [] => POk (mkPstate (PClass negated [c]) (top st) (open_groups st) (last st))
    | _ :: _ => PUnsupported           (* a range, or a trailing dash *)
    end
  else POk (mkPstate (PClass negated (members ++ [c])) (top st) (open_groups st) (last st)).

Definition pstep (st : pstate) (c : ascii) : presult :=
  match mode st with
  | PNormal =>
      if Ascii.eqb c "\" then POk (mkPstate PEscape (top st) (open_groups st) (last st))
      else if Ascii.eqb c "[" then POk (mkPstate PClassOpen (top st) (open_groups st) (last st))
      else if Ascii.eqb c "(" then
        POk (mkPstate PNormal (mkFrame [] []) (top st :: open_groups st) GroupOpen)
      else if Ascii.eqb c ")" then
        match open_groups st with
        | [] => PSyntaxError "Unmatched ')'"
        | f :: fs =>
            POk (mkPstate PNormal (mkFrame (alts f) (close_frame (top st) :: cur f)) fs IsAtom)
        end
      else if Ascii.eqb c "|" then
        POk (mkPstate PNormal
               (mkFrame (alts (top st) ++ [seq_of (rev (cur (top st)))]) [])
               (open_groups st) NoTerm)
      else if Ascii.eqb c "*" then quantify Star st
      else if Ascii.eqb c "+" then quantify Plus st
      else if Ascii.eqb c "?" then
        match last st with
        | IsAtom => quantify Opt st
        | IsQuantified => POk (mkPstate PNormal (top st) (open_groups st) IsLazy)
        | GroupOpen => PUnsupported      (* (?: (?= (?! (?< *)
        | _ => PSyntaxError "Nothing to repeat"
        end
      else if Ascii.eqb c "{" then PUnsupported
      else if Ascii.eqb c "^" then POk (push_term Bol IsAssertion st)
      else if Ascii.eqb c "$" then POk (push_term Eol IsAssertion st)
      else if Ascii.eqb c "." then POk (push_term Any IsAtom st)
      else POk (push_term (Chr c) IsAtom st)
  | PEscape =>
      if is_alnum c then PUnsupported    (* \d \w \b \1 \n ... *)
      else POk (push_term (Chr c) IsAtom st)
  | PClassOpen =>
      if Ascii.eqb c "^" then POk (mkPstate (PClass true []) (top st) (open_groups st) (last st))
      else in_class false [] c st
  | PClass negated members => in_class negated members c st
  | PClassEscape negated members =>
      if is_alnum c then PUnsupported
      else POk (mkPstate (PClass negated (members ++ [c])) (top st) (open_groups st) (last st))
  end.

Fixpoint prun (st : pstate) (src : list ascii) : presult :=
  match src with
  | [] => POk st
  | c :: src' =>
      match pstep st c with
      | POk st' => prun st' src'
      | bad => bad
      end
  end.

Definition pstart : pstate := mkPstate PNormal (mkFrame [] []) [] NoTerm.

Definition syntax_error (why : string) : Error :=
  mkError SyntaxError ("SyntaxError: Invalid regular expression: " ++ why)%string.

Definition pfinish (st : pstate) : result regex :=
  match mode st, open_groups st with
  | PNormal, [] => Normal (close_frame (top st))
  | PNormal, _ :: _ => Throw (syntax_error "Unterminated group")
  | PEscape, _ => Throw (syntax_error "\ at end of pattern")
  | _, _ => Throw (syntax_error "Unterminated character class")
  end.

Definition new (source : string) : result regex :=
  match prun pstart (list_ascii_of_string source) with
  | POk st => pfinish st
  | PSyntaxError why => Throw (syntax_error why)
  | PUnsupported => Unmodelled
  end.

End RegExp.

(** [s.replace(/c/g, by)] for a one-character pattern and a replacement
    text without [$]. *)
Fixpoint replace_all (c : ascii) (by_ : string) (s : string) : string :=
  match s with
  | EmptyString => EmptyString
  | String x s' =>
      if Ascii.eqb x c then (by_ ++ replace_all c by_ s')%string
      else String x (replace_all c by_ s')
  end.

(** The pattern text [routify] hands to the [RegExp] constructor. The
    source writes the two replacement texts as the literals ['[^\/]+']
    (the text [[^/]+]) and ['\\/'] (the text [\/]). *)
Definition routify_source (n : string) : string :=
  ("^" ++ replace_all "/" "\/" (replace_all "*" "[^/]+" n) ++ "$")%string.

(** [Router.prototype.routify]. Only a string has a [replace] method. *)
Definition routify (n : jsval) : result RegExp.regex :=
  match n with
  | VStr s => RegExp.new (routify_source s)
  | VUndefined | VNull => Throw (cannot_read n "replace")
  | _ => Throw (type_error "n.replace is not a function")
  end.

Definition matches (route candidate : string) : result bool :=
  let! r := routify (VStr route) in Normal (RegExp.test r candidate).

(* ================================================================== *)
(** * The host: clock, timers, console, and what an observer sees *)
(* ================================================================== *)

(** What the outside world can observe of a run, in order. *)
Inductive obs : Type :=
| Connected (at_ : Z)                       (* [connect] created a socket *)
| Closed (at_ : Z)                          (* a socket reported its closure *)
| Sent (frame : jsval)                      (* [socket.send(frame)] returned *)
| Called (name : string) (this arg : jsval) (* a user callback was entered *).

(** An object that is passed around is named by its place in the store;
    the store holds what each object contains now. The caller, a hook, and
    the queue of the connection can hold the same object: what one of
    them writes, the others read. *)
Definition ref : Type := nat.

Record Host : Type := mkHost {
  clock : Z;                 (* milliseconds *)
  timers : list Z;           (* due times of the pending [connect] timeouts *)
  console : list thrown;     (* the arguments of [console.log], in order *)
  trace : list obs;
  store : list jsval         (* the objects passed by reference *)
}.

Definition boot : Host := mkHost 0 [] [] [] [].

(** The present content of an object. *)
Definition content (m : ref) (h : Host) : jsval := nth m (store h) VUndefined.

Fixpoint replace_nth {A} (i : nat) (x : A) (l : list A) : list A :=
  match l, i with
  | [], _ => []
  | _ :: l', O => x :: l'
  | y :: l', S i' => y :: replace_nth i' x l'
  end.

(** An object is written: it is the same object, with a new content. *)
Definition write (m : ref) (v : jsval) (h : Host) : Host :=
  mkHost (clock h) (timers h) (console h) (trace h) (replace_nth m v (store h)).

(** Computations over the host and one object of type [St]. A thrown
    error leaves the effects made before it in place. *)
Definition M (St A : Type) : Type := Host -> St -> result A * Host * St.

Definition ret {St A} (a : A) : M St A := fun h s => (Normal a, h, s).

Definition mbind {St A B} (m : M St A) (k : A -> M St B) : M St B :=
  fun h s =>
    match m h s with
    | (Normal a, h', s') => k a h' s'
    | (Throw e, h', s') => (Throw e, h', s')
    | (Unmodelled, h', s') => (Unmodelled, h', s')
    | (Running, h', s') => (Running, h', s')
    end.

Definition throw {St A} (e : thrown) : M St A := fun h s => (Throw e, h, s).

Definition try_catch {St A} (body : M St A) (handler : thrown -> M St A) : M St A :=
  fun h s =>
    match body h s with
    | (Throw e, h', s') => handler e h' s'
    | other => other
    end.

Definition running {St A} : M St A := fun h s => (Running, h, s).

Definition lift {St A} (r : result A) : M St A := fun h s => (r, h, s).
Definition this_ {St} : M St St := fun h s => (Normal s, h, s).
Definition modify {St} (f : St -> St) : M St unit := fun h s => (Normal tt, h, f s).
Definition host_ {St} : M St Host := fun h s => (Normal h, h, s).
Definition modify_host {St} (f : Host -> Host) : M St unit := fun h s => (Normal tt, f h, s).

Notation "x <- m ;; k" := (mbind m (fun x => k))
  (at level 61, m at next level, right associativity) : js_scope.
Notation "m ;;; k" := (mbind m (fun _ => k))
  (at level 61, right associativity) : js_scope.

Definition emit {St} (o : obs) : M St unit :=
  modify_host (fun h => mkHost (clock h) (timers h) (console h) (trace h ++ [o]) (store h)).

Definition console_log {St} (x : thrown) : M St unit :=
  modify_host (fun h => mkHost (clock h) (timers h) (console h ++ [x]) (trace h) (store h)).

(** A new object: an object literal, the result of [Object.assign] on a
    fresh target, or a value on its way into a function. *)
Definition alloc {St} (v : jsval) : M St ref :=
  fun h s =>
    (Normal (List.length (store h)),
     mkHost (clock h) (timers h) (console h) (trace h) (store h ++ [v]), s).

(** [setTimeout(this.connect.bind(this), delay)]: the only callback the
    source ever schedules is [connect]. *)
Definition setTimeout_connect {St} (delay : Z) : M St unit :=
  modify_host (fun h =>
    mkHost (clock h) (timers h ++ [(clock h + delay)%Z]) (console h) (trace h) (store h)).

Definition elapse (dt : Z) (h : Host) : Host :=
  mkHost (clock h + dt)%Z (timers h) (console h) (trace h) (store h).

(** A function of the caller: a handler or a hook. The router keeps the
    function, and the function can reach the router, so what it does
    when called is given apart ([Router.Callbacks], below); here it is
    the identity of the function. Its result is never read by the
    router: a call returns, or throws a value. *)
Record callable : Type := mkCallable { cname : string }.

Inductive outcome : Type :=
| Returns
| Throws (e : thrown).

(** [JSON.stringify]. The frame is represented by the value it encodes;
    a BigInt anywhere in the value makes the call throw. *)
Fixpoint has_bigint (v : jsval) : bool :=
  match v with
  | VBigInt _ => true
  | VArr elems => existsb has_bigint elems
  | VObj props => existsb (fun p => has_bigint (snd p)) props
  | _ => false
  end.

Definition JSON_stringify (v : jsval) : result jsval :=
  if has_bigint v then Throw (type_error "Do not know how to serialize a BigInt")
  else Normal v.

(** An inbound text frame, and [JSON.parse] on it. *)
Inductive text_frame : Type :=
| Encodes (v : jsval)
| Malformed.

Definition JSON_parse (data : text_frame) : result jsval :=
  match data with
  | Encodes v => Normal v
  | Malformed => Throw (mkError SyntaxError "SyntaxError: Unexpected token in JSON")
  end.

(** The socket, as the source uses it. *)
Class Transport (Sock : Type) : Type := {
  ws_new : string -> Sock;                   (* [new WebSocket(url)] *)
  ws_readyState : Sock -> Z;
  ws_send : Sock -> jsval -> option Sock; (* [None]: the call throws *)
  ws_close : Sock -> Sock
}.

(* ================================================================== *)
(** * ConnectionHandler *)
(* ================================================================== *)

Module ConnectionHandler.
Section WithSocket.
Context {Sock : Type} {T : Transport Sock}.

(** The three bound methods [connect] installs on a socket. *)
Inductive listener : Type := flush_bound | reconnect_bound | dispatch_bound.

Record WebSocket : Type := mkWebSocket {
  handle : Sock;
  onopen : option listener;
  onclose : option listener;
  onmessage : option listener
}.

Record t : Type := mk {
  connection_query : string;
  messageQueue : list ref;           (* the queued objects themselves *)
  connectionsAttemp : Z;
  connection : option WebSocket;     (* absent until the first [connect] *)
  onopen_own : bool                  (* an [onopen] property set on the
                                        handler object itself *)
}.

Definition set_messageQueue (q : list ref) (c : t) : t :=
  mk (connection_query c) q (connectionsAttemp c) (connection c) (onopen_own c).
Definition set_connectionsAttemp (a : Z) (c : t) : t :=
  mk (connection_query c) (messageQueue c) a (connection c) (onopen_own c).
Definition set_connection (w : option WebSocket) (c : t) : t :=
  mk (connection_query c) (messageQueue c) (connectionsAttemp c) w (onopen_own c).
Definition set_onopen_own (b : bool) (c : t) : t :=
  mk (connection_query c) (messageQueue c) (connectionsAttemp c) (connection c) b.

(** A socket as [connect] leaves it: just created, with [flush],
    [reconnect] and [dispatch] bound to its three events. *)
Definition fresh_socket (url : string) : WebSocket :=
  mkWebSocket (ws_new url) (Some flush_bound) (Some reconnect_bound) (Some dispatch_bound).

Definition connect : M t unit :=
  modify (fun c => set_connectionsAttemp (connectionsAttemp c + 1)%Z c) ;;;
  h <- host_ ;;
  emit (Connected (clock h)) ;;;
  modify (fun c => set_connection (Some (fresh_socket (connection_query c))) c).

Definition reconnect : M t unit :=
  c <- this_ ;;
  if (connectionsAttemp c <? 10)%Z
  then setTimeout_connect 1000
  else console_log (Value (VStr ("10 Attemps to connect failed to the server "
                                 ++ connection_query c ++ ". Is server up?")%string)).

(** [this.connection.send(frame)]. *)
Definition socket_send (frame : jsval) : M t unit :=
  c <- this_ ;;
  match connection c with
  | None => throw (type_error "Cannot read properties of undefined (reading 'send')")
  | Some w =>
      match ws_send (handle w) frame with
      | None => throw (mkError InvalidStateError "InvalidStateError")
      | Some s' =>
          modify (set_connection (Some (mkWebSocket s' (onopen w) (onclose w) (onmessage w)))) ;;;
          emit (Sent frame)
      end
  end.

(** [send]: the frame is what the object contains when it is
    serialised; what goes onto the queue is the object. *)
Definition send (message : ref) : M t unit :=
  try_catch
    (h <- host_ ;;
     frame <- lift (JSON_stringify (content message h)) ;;
     socket_send frame)
    (fun err => modify (fun c => set_messageQueue (messageQueue c ++ [message]) c)).

(** The [for ... of] loop of [flush]: an array iterator reads the array
    afresh at each step, and [send] pushes onto that same array. The
    loop may not end; [None] is "still running after [fuel] steps". *)
Fixpoint flush_loop (fuel : nat) (i : nat) (h : Host) (c : t)
  : option (result unit * Host * t) :=
  match fuel with
  | O => None
  | S fuel' =>
      match nth_error (messageQueue c) i with
      | None => Some (Normal tt, h, c)
      | Some message =>
          match send message h c with
          | (Normal _, h', c') => flush_loop fuel' (S i) h' c'
          | other => Some other
          end
      end
  end.

Definition flush (fuel : nat) (h : Host) (c : t) : option (result unit * Host * t) :=
  match flush_loop fuel 0 h (set_connectionsAttemp 0 c) with
  | Some (Normal _, h', c') => Some (Normal tt, h', set_messageQueue [] c')
  | other => other
  end.

(** [new ConnectionHandler(connection_query, on_message)]: the fields are
    initialised, then [connect] runs. The callback [on_message] is the
    router's [dispatch]; it is supplied where messages are delivered. *)
Definition blank (connection_query : string) : t := mk connection_query [] 0 None false.

Definition new (connection_query : string) (h : Host) : result unit * Host * t :=
  connect h (blank connection_query).

(** ** The environment's moves *)

(** The socket changes state on its own (it opens, it closes). *)
Definition socket_becomes (s : Sock) : M t unit :=
  modify (fun c =>
    match connection c with
    | Some w => set_connection (Some (mkWebSocket s (onopen w) (onclose w) (onmessage w))) c
    | None => c
    end).

(** The current socket reports its closure: its [onclose] listener runs. *)
Definition closed : M t unit :=
  h <- host_ ;;
  emit (Closed (clock h)) ;;;
  c <- this_ ;;
  match connection c with
  | Some w =>
      match onclose w with
      | Some reconnect_bound => reconnect
      | _ => ret tt
      end
  | None => ret tt
  end.

(** The oldest pending timeout fires: the clock reaches its due time and
    [connect] runs. *)
Definition fire_timer : M t unit :=
  h <- host_ ;;
  match timers h with
  | [] => ret tt
  | due :: rest =>
      modify_host (fun h => mkHost (Z.max (clock h) due) rest (console h) (trace h) (store h)) ;;;
      connect
  end.

(** A transport that never opens: the socket of attempt number [k]
    closes [latency k] ms after its creation; a pending reconnection
    timeout then fires when due. The run stops when nothing is pending. *)
Fixpoint never_opens (latency : nat -> Z) (k fuel : nat) (h : Host) (c : t) : Host * t :=
  match fuel with
  | O => (h, c)
  | S fuel' =>
      let '(_, h1, c1) := closed (elapse (latency k) h) c in
      match timers h1 with
      | [] => (h1, c1)
      | _ :: _ =>
          let '(_, h2, c2) := fire_timer h1 c1 in
          never_opens latency (S k) fuel' h2 c2
      end
  end.

End WithSocket.

Arguments t Sock : clear implicits.
Arguments WebSocket Sock : clear implicits.

End ConnectionHandler.

(* ================================================================== *)
(** * Router *)
(* ================================================================== *)

Definition BEFORE : string := "BEFORE".
Definition AFTER : string := "AFTER;".

(** [evt.fn instanceof Array] *)
Inductive handlers : Type :=
| Single (f : callable)
| Many (fs : list callable).

Module Event.
Record t : Type := mk {
  eid : nat;                 (* object identity *)
  n : RegExp.regex;
  fn : handlers;
  action : jsval;            (* [VUndefined]: the property is absent *)
  filters : jsval;
  bind : jsval
}.
End Event.

Module Task.
Record t : Type := mk {
  route : RegExp.regex;
  fn : callable;
  position : string
}.
End Task.

Module Router.

Section State.
Context {Sock : Type}.

Record t : Type := mk {
  events : list Event.t;
  lastEvents : list Event.t;
  registeredTasks : list Task.t;
  connection : ConnectionHandler.t Sock;
  messageQueue : option (list jsval);   (* an own property only [close] creates *)
  ctx : jsval;                          (* the closure variable [ctx] *)
  next_eid : nat
}.

Definition set_events (es : list Event.t) (r : t) : t :=
  mk es (lastEvents r) (registeredTasks r) (connection r) (messageQueue r) (ctx r) (next_eid r).
Definition set_lastEvents (es : list Event.t) (r : t) : t :=
  mk (events r) es (registeredTasks r) (connection r) (messageQueue r) (ctx r) (next_eid r).
Definition set_registeredTasks (ts : list Task.t) (r : t) : t :=
  mk (events r) (lastEvents r) ts (connection r) (messageQueue r) (ctx r) (next_eid r).
Definition set_connection (c : ConnectionHandler.t Sock) (r : t) : t :=
  mk (events r) (lastEvents r) (registeredTasks r) c (messageQueue r) (ctx r) (next_eid r).
Definition set_messageQueue (q : option (list jsval)) (r : t) : t :=
  mk (events r) (lastEvents r) (registeredTasks r) (connection r) q (ctx r) (next_eid r).
Definition set_next_eid (i : nat) (r : t) : t :=
  mk (events r) (lastEvents r) (registeredTasks r) (connection r) (messageQueue r) (ctx r) i.

End State.

Arguments t Sock : clear implicits.

(** What the functions of the caller do. A handler or a hook is called
    with its [this] and one argument, an object; it runs on the host and
    on the router: it can write the object it was given (that is how a
    hook transforms a message) and any other, and it can call the router
    ([send], [on], [intercept], [beforeSend], ...) or reach into it
    before it returns or throws. Nothing is assumed of it but that it
    completes. *)
Class Callbacks (Sock : Type) : Type := {
  body : callable -> jsval -> ref -> Host -> t Sock -> outcome * Host * t Sock
}.

Section WithSocket.
Context {Sock : Type} {T : Transport Sock} {P : Callbacks Sock}.

(** Run a method of [this.connection]. *)
Definition on_connection {A} (m : M (ConnectionHandler.t Sock) A) : M (t Sock) A :=
  fun h r =>
    let '(a, h', c') := m h (connection r) in (a, h', set_connection c' r).

(** [f.bind(this)(arg)] *)
Definition call (f : callable) (this : jsval) (arg : ref) : M (t Sock) unit :=
  h <- host_ ;;
  emit (Called (cname f) this (content arg h)) ;;;
  (fun h r =>
     match body f this arg h r with
     | (Returns, h', r') => (Normal tt, h', r')
     | (Throws e, h', r') => (Throw e, h', r')
     end).

(** ** Matching *)

(** [applyFilters(dataFilters, eventFilters)]: the [forEach] visits every
    key, whatever the earlier ones gave. *)
Fixpoint applyFilters_each (dataFilters eventFilters : jsval) (keys : list string)
    (isFilterMatching : bool) : result bool :=
  match keys with
  | [] => Normal isFilterMatching
  | key :: keys' =>
      let! d := get dataFilters key in
      let! ds := toString_method d in
      let! re := routify (VStr ds) in
      let! f := get eventFilters key in
      let! fs := toString_method f in
      let! hit := RegExp.exec re (VStr fs) in
      applyFilters_each dataFilters eventFilters keys'
        (if hit then isFilterMatching else false)
  end.

Definition applyFilters (dataFilters eventFilters : jsval) : result bool :=
  applyFilters_each dataFilters eventFilters (Object_keys eventFilters) true.

Definition shouldEventExecute (data : jsval) (evt : Event.t) : result bool :=
  let! re := routify (Event.action evt) in
  let! a := get data "action" in
  let! hit := RegExp.exec re a in
  if negb hit then Normal false
  else
    let! d := get data "data" in
    let! refused :=
      if truthy (Event.filters evt) && negb (truthy d) then Normal true
      else if truthy d && truthy (Event.filters evt)
      then let! ok := applyFilters d (Event.filters evt) in Normal (negb ok)
      else Normal false in
    if refused then Normal false
    else
      let! rt := get data "route" in
      RegExp.exec (Event.n evt) rt.

Definition shouldTaskExecute (data : jsval) (task : Task.t) (position : string) : result bool :=
  if negb (String.eqb position (Task.position task)) then Normal false
  else
    let! rt := get data "route" in
    RegExp.exec (Task.route task) rt.

(** ** Registration *)

(** The builder [on] returns: it holds the event it has just created. *)
Definition Builder : Type := nat.

Definition update_event (id : nat) (f : Event.t -> Event.t) : M (t Sock) unit :=
  let upd := map (fun e => if Nat.eqb (Event.eid e) id then f e else e) in
  modify (fun r => set_lastEvents (upd (lastEvents r)) (set_events (upd (events r)) r)).

Definition push_event (n : RegExp.regex) (fn : handlers) (action : jsval) : M (t Sock) Builder :=
  r <- this_ ;;
  let id := next_eid r in
  modify (fun r =>
    set_next_eid (S id)
      (set_events (events r ++ [Event.mk id n fn action VUndefined VUndefined]) r)) ;;;
  ret id.

Definition on (n : jsval) (fn : handlers) : M (t Sock) Builder :=
  pattern <- lift (routify n) ;;
  push_event pattern fn (VStr "*").

Definition builder_action (b : Builder) (ACTION : jsval) : M (t Sock) Builder :=
  (if truthy ACTION
   then update_event b (fun e =>
          Event.mk (Event.eid e) (Event.n e) (Event.fn e) ACTION (Event.filters e) (Event.bind e))
   else ret tt) ;;;
  ret b.

Definition builder_filters (b : Builder) (filters : jsval) : M (t Sock) Builder :=
  (if truthy filters
   then update_event b (fun e =>
          Event.mk (Event.eid e) (Event.n e) (Event.fn e) (Event.action e) filters (Event.bind e))
   else ret tt) ;;;
  ret b.

Definition builder_bind (b : Builder) (bind : jsval) : M (t Sock) Builder :=
  (if truthy bind
   then update_event b (fun e =>
          Event.mk (Event.eid e) (Event.n e) (Event.fn e) (Event.action e) (Event.filters e) bind)
   else ret tt) ;;;
  ret b.

(** The identifiers in scope inside the builder's methods: the locals of
    [on], then those of [WebSocketRouter]. The arrays of the router are
    properties of the router object ([this.events], [this.lastEvents]),
    not variables; the host defines no global of either name. *)
Inductive binding : Type :=
| b_event | b_n | b_fn
| b_BEFORE | b_AFTER | b_ConnectionHandler | b_Router
| b_connection_query | b_ctx | b_WebSocketRouter.

Definition builder_scope : list (string * binding) :=
  [ ("event", b_event); ("n", b_n); ("fn", b_fn);
    ("BEFORE", b_BEFORE); ("AFTER", b_AFTER);
    ("ConnectionHandler", b_ConnectionHandler); ("Router", b_Router);
    ("connection_query", b_connection_query); ("ctx", b_ctx);
    ("WebSocketRouter", b_WebSocketRouter) ].

Definition reference_error (name : string) : Error :=
  mkError ReferenceError ("ReferenceError: " ++ name ++ " is not defined")%string.

(** [executeLast]: its first statement is
    [lastEvents.push(events[events.indexOf(event)])], which starts by
    resolving the identifier [lastEvents]. None of the bindings in scope
    is an array, so a name that did resolve would have no [push]. *)
Definition builder_executeLast (b : Builder) : M (t Sock) unit :=
  match assoc "lastEvents" builder_scope with
  | None => throw (reference_error "lastEvents")
  | Some _ => throw (type_error "lastEvents.push is not a function")
  end.

Definition action_UPDATE : jsval := VStr "UPDATE".
Definition action_DELETE : jsval := VStr "DELETE".
Definition action_CREATE : jsval := VStr "CREATE".
Definition action_SUBSCRIBE : jsval := VStr "SUBSCRIBE".
Definition action_REQUEST : jsval := VStr "REQUEST".

Definition on_with (ACTION : jsval) (n : jsval) (fn : handlers) (filters : jsval)
  : M (t Sock) Builder :=
  b <- on n fn ;;
  b <- builder_action b ACTION ;;
  builder_filters b filters.

Definition delete := on_with action_DELETE.
Definition update := on_with action_UPDATE.
Definition create := on_with action_CREATE.
Definition request := on_with action_REQUEST.
Definition subscribe := on_with action_SUBSCRIBE.

(** [intercept] pushes [{ n: this.routify(n), fn: fn }]: no [action]. *)
Definition intercept (n : jsval) (fn : handlers) : M (t Sock) unit :=
  pattern <- lift (routify n) ;;
  _ <- push_event pattern fn VUndefined ;;
  ret tt.

Definition registerSendTask (route : jsval) (fn : callable) (position : string)
  : M (t Sock) unit :=
  pattern <- lift (routify route) ;;
  modify (fun r => set_registeredTasks (registeredTasks r ++ [Task.mk pattern fn position]) r).

Definition beforeSend (route : jsval) (fn : callable) : M (t Sock) unit :=
  registerSendTask route fn BEFORE.
Definition afterSend (route : jsval) (fn : callable) : M (t Sock) unit :=
  registerSendTask route fn AFTER.

(** ** Outbound: [send] and its hooks *)

(** The loop of [executeTaks], from index [i] on. Each turn reads
    [this.registeredTasks] afresh: a task that a hook registers while the
    loop runs is met by the loop. The test reads the route the message
    has at that moment. The loop may not end; [fuel] is the number of
    turns allowed. *)
Fixpoint executeTaks_from (fuel i : nat) (data : ref) (position : string) : M (t Sock) unit :=
  match fuel with
  | O => running
  | S fuel' =>
      r <- this_ ;;
      match nth_error (registeredTasks r) i with
      | None => ret tt
      | Some task =>
          h <- host_ ;;
          go <- lift (shouldTaskExecute (content data h) task position) ;;
          (if go then call (Task.fn task) (ctx r) data else ret tt) ;;;
          executeTaks_from fuel' (S i) data position
      end
  end.

Definition executeTaks (fuel : nat) (data : ref) (position : string) : M (t Sock) unit :=
  executeTaks_from fuel 0 data position.

(** [send]: the hooks and the connection receive the same object. *)
Definition send (fuel : nat) (message : ref) : M (t Sock) unit :=
  try_catch
    (executeTaks fuel message BEFORE ;;;
     on_connection (ConnectionHandler.send message) ;;;
     executeTaks fuel message AFTER)
    (fun err => console_log err).

(** [Object.assign(target, source)] on a plain target: the own enumerable
    properties of the source are written one by one. *)
Fixpoint put (key : string) (v : jsval) (props : list (string * jsval)) : list (string * jsval) :=
  match props with
  | [] => [(key, v)]
  | (k, x) :: props' => if String.eqb k key then (k, v) :: props' else (k, x) :: put key v props'
  end.

Definition Object_assign (target : list (string * jsval)) (source : jsval) : jsval :=
  VObj (fold_left (fun acc kv => put (fst kv) (snd kv) acc) (own_enumerable source) target).

(** [message(options)]: the object sent is a new one, into which the
    members of [options] are copied. *)
Definition message (fuel : nat) (options : jsval) : M (t Sock) unit :=
  m <- alloc (Object_assign [("route", VStr "*")] options) ;;
  send fuel m.

(** [error.stack], for whatever was thrown. *)
Definition stack_of (error : thrown) : result jsval :=
  match error with
  | ErrorObject e => Normal (VStr (stack e))
  | Value v => get v "stack"
  end.

Definition ExceptionHandler (error : thrown) : result jsval :=
  let! s := stack_of error in
  Normal (VObj [("message", s)]).

Definition error (fuel : nat) (error : jsval) : M (t Sock) unit :=
  m <- alloc (VObj [("route", VStr "/socket/error"); ("data", error)]) ;;
  send fuel m.

(** ** Inbound: [dispatch] and [runner] *)

(** An entry of the run-list: a handler bound to its [this]. *)
Definition bound : Type := (callable * jsval)%type.

Definition applyToQueue (r : t Sock) (evt : Event.t) (run : list bound) : list bound :=
  let this := if truthy (Event.bind evt) then Event.bind evt else ctx r in
  match Event.fn evt with
  | Many fs => run ++ map (fun f => (f, this)) fs
  | Single f => run ++ [(f, this)]
  end.

Fixpoint collect (r : t Sock) (data : jsval) (evts : list Event.t) (run : list bound)
  : result (list bound) :=
  match evts with
  | [] => Normal run
  | evt :: evts' =>
      let! go := shouldEventExecute data evt in
      collect r data evts' (if go then applyToQueue r evt run else run)
  end.

(** The loop of [runner]: [run] is an array of [dispatch]'s own, which no
    handler can reach; every entry receives the same object [data]. *)
Fixpoint run_each (run : list bound) (data : ref) : M (t Sock) unit :=
  match run with
  | [] => ret tt
  | (f, this) :: run' =>
      call f this data ;;;
      run_each run' data
  end.

(** [runner]: the [catch] clause calls [ExceptionHandler], then [error];
    what either throws leaves [runner]. *)
Definition runner (fuel : nat) (run : list bound) (data : ref) : M (t Sock) unit :=
  try_catch (run_each run data)
    (fun e =>
       payload <- lift (ExceptionHandler e) ;;
       error fuel payload).

(** [dispatch]: the two scans read the message and call nothing; then
    the payload [data.data] goes to the handlers, as one object. *)
Definition dispatch (fuel : nat) (data : jsval) : M (t Sock) unit :=
  r <- this_ ;;
  run <- lift (collect r data (events r) []) ;;
  run <- lift (collect r data (lastEvents r) run) ;;
  payload <- lift (get data "data") ;;
  arg <- alloc payload ;;
  runner fuel run arg.

(** ** [close], which the source attaches to [Router.prototype] *)

(** The members of a ConnectionHandler object that hold data. It has no
    [readyState] (that is a member of the socket, [this.connection] of
    the handler) and no [close] method. *)
Definition handler_members (h : Host) (c : ConnectionHandler.t Sock) : list (string * jsval) :=
  [ ("connection_query", VStr (ConnectionHandler.connection_query c));
    ("messageQueue", VArr (map (fun m => content m h) (ConnectionHandler.messageQueue c)));
    ("connectionsAttemp", VNum (ConnectionHandler.connectionsAttemp c)) ].

Definition handler_member (h : Host) (c : ConnectionHandler.t Sock) (name : string) : jsval :=
  match assoc name (handler_members h c) with
  | Some v => v
  | None => VUndefined
  end.

(** [v == 1] *)
Definition loosely_equals_1 (v : jsval) : result bool :=
  match v with
  | VUndefined | VNull => Normal false
  | VBool b => Normal b
  | VNum z | VBigInt z => Normal (z =? 1)%Z
  | _ => Unmodelled
  end.

Definition close : M (t Sock) unit :=
  modify (set_messageQueue (Some [])) ;;;
  h <- host_ ;;
  r <- this_ ;;
  is_open <- lift (loosely_equals_1 (handler_member h (connection r) "readyState")) ;;
  if is_open
  then throw (type_error "this.connection.close is not a function")
  else modify (fun r => set_connection (ConnectionHandler.set_onopen_own true (connection r)) r).

(** [new Router(connection_query, ctx)] *)
Definition new (connection_query : string) (ctx : jsval) (h : Host)
  : result unit * Host * t Sock :=
  let '(a, h', c) := ConnectionHandler.new connection_query h in
  (a, h', mk [] [] [] c None ctx 0).

(** ** The socket's events, as the listeners [connect] installed see them *)

(** [ConnectionHandler.prototype.dispatch], whose [on_message] is the
    router's [dispatch]: the parse is not guarded. *)
Definition connection_dispatch (fuel : nat) (data : text_frame) : M (t Sock) unit :=
  parsed <- lift (JSON_parse data) ;;
  dispatch fuel parsed.

Definition received (fuel : nat) (data : text_frame) : M (t Sock) unit :=
  r <- this_ ;;
  match ConnectionHandler.connection (connection r) with
  | Some w =>
      match ConnectionHandler.onmessage w with
      | Some ConnectionHandler.dispatch_bound => connection_dispatch fuel data
      | _ => ret tt
      end
  | None => ret tt
  end.

Definition opened (fuel : nat) (h : Host) (r : t Sock) : option (result unit * Host * t Sock) :=
  match ConnectionHandler.connection (connection r) with
  | Some w =>
      match ConnectionHandler.onopen w with
      | Some ConnectionHandler.flush_bound =>
          match ConnectionHandler.flush fuel h (connection r) with
          | Some (a, h', c') => Some (a, h', set_connection c' r)
          | None => None
          end
      | _ => Some (Normal tt, h, r)
      end
  | None => Some (Normal tt, h, r)
  end.

End WithSocket.

End Router.

(* ================================================================== *)
(** * A concrete socket: the browser's WebSocket *)
(* ================================================================== *)

Module Browser.

Record socket : Type := mk { url : string; readyState : Z }.

Definition CONNECTING : Z := 0.
Definition OPEN : Z := 1.
Definition CLOSING : Z := 2.
Definition CLOSED : Z := 3.

(** [send] throws while the socket is connecting, and not otherwise. *)
#[global] Instance transport : Transport socket := {|
  ws_new := fun u => mk u CONNECTING;
  ws_readyState := readyState;
  ws_send := fun s _ => if (readyState s =? CONNECTING)%Z then None else Some s;
  ws_close := fun s => mk (url s) CLOSING
|}.

Definition opens (s : socket) : socket := mk (url s) OPEN.

End Browser.

(* ================================================================== *)
(** * Vocabulary of the statements *)
(* ================================================================== *)

(** ** Routes, read as the documentation reads them *)

Module Glob.
Import RegExp.

(** The characters with a meaning of their own in a pattern. *)
Definition syntax_character (c : ascii) : bool :=
  mem_ascii c ["^"; "$"; "\"; "."; "*"; "+"; "?"; "("; ")"; "["; "]"; "{"; "}"; "|"]%char.

(** A route whose only special character is the wildcard. *)
Definition plain_route (route : string) : Prop :=
  Forall (fun c => c = "*"%char \/ syntax_character c = false) (list_ascii_of_string route).

(** What a route is said to accept: the whole candidate, each [*] standing
    for one or more characters other than [/], every other character for
    itself. *)
Fixpoint glob (route candidate : list ascii) : Prop :=
  match route with
  | [] => candidate = []
  | c :: route' =>
      if Ascii.eqb c "*"
      then exists seg rest,
             candidate = seg ++ rest /\ seg <> [] /\
             Forall (fun x => x <> "/"%char) seg /\ glob route' rest
      else exists rest, candidate = c :: rest /\ glob route' rest
  end.

Definition accepts (route candidate : string) : Prop :=
  glob (list_ascii_of_string route) (list_ascii_of_string candidate).

Definition segment : regex := Plus (Class true ["/"%char]).

Definition term_of (c : ascii) : regex :=
  if Ascii.eqb c "*" then segment else Chr c.

Definition feed_char (st : pstate) (c : ascii) : pstate :=
  if Ascii.eqb c "*"
  then mkPstate PNormal (mkFrame (alts (top st)) (segment :: cur (top st)))
         (open_groups st) IsQuantified
  else push_term (Chr c) IsAtom st.

Definition escaped (route : string) : string :=
  replace_all "/" "\/" (replace_all "*" "[^/]+" route).

Fixpoint feed (st : pstate) (route : list ascii) : pstate :=
  match route with
  | [] => st
  | c :: route' => feed (feed_char st c) route'
  end.

(** The pattern [routify] builds for a plain route. *)
Definition pattern_of (route : string) : regex :=
  Seq Bol (seq_of (map term_of (list_ascii_of_string route) ++ [Eol])).

Definition not_slash (x : ascii) : bool := xorb true (mem_ascii x ["/"%char]).

End Glob.

(** ** What an observer extracts from a trace *)

Definition connect_times (tr : list obs) : list Z :=
  flat_map (fun o => match o with Connected t => [t] | _ => [] end) tr.

Definition close_times (tr : list obs) : list Z :=
  flat_map (fun o => match o with Closed t => [t] | _ => [] end) tr.

(** What an observer of a transport that never opens is expected to see
    from the closure of attempt [k], made at time [t], when [more]
    attempts remain. *)
Fixpoint failing_trace (latency : nat -> Z) (k : nat) (t : Z) (more : nat) : list obs :=
  match more with
  | O => [Closed (t + latency k)]
  | S more' =>
      Closed (t + latency k) :: Connected (t + latency k + 1000)
      :: failing_trace latency (S k) (t + latency k + 1000) more'
  end.

Definition called_names (tr : list obs) : list string :=
  flat_map (fun o => match o with Called name _ _ => [name] | _ => [] end) tr.

Definition sent_frames (tr : list obs) : list jsval :=
  flat_map (fun o => match o with Sent frame => [frame] | _ => [] end) tr.

Definition log (o : obs) (h : Host) : Host :=
  mkHost (clock h) (timers h) (console h) (trace h ++ [o]) (store h).

Definition logs (tr : list obs) (h : Host) : Host :=
  mkHost (clock h) (timers h) (console h) (trace h ++ tr) (store h).

Definition printed (x : thrown) (h : Host) : Host :=
  mkHost (clock h) (timers h) (console h ++ [x]) (trace h) (store h).

(** The host with other contents in its objects, and nothing else
    changed. *)
Definition with_store (s : list jsval) (h : Host) : Host :=
  mkHost (clock h) (timers h) (console h) (trace h) s.





(** The message [runner] sends for a failure whose [stack] reads [s]. *)
Definition error_message (s : jsval) : jsval :=
  VObj [("route", VStr "/socket/error"); ("data", VObj [("message", s)])].


(** ** Concrete runs, in a browser *)

Module Scenario.

Definition url : string := "ws://localhost:8080".

Definition R : Type := Router.t Browser.socket.

(** *** The functions of the caller *)

Inductive behaviour : Type :=
| Returning                            (* [function (data) { }] *)
| Throwing (v : thrown)                (* [function (data) { throw v; }] *)
| Setting (key : string) (v : jsval)   (* [function (data) { data[key] = v; }] *)
| Registering (route name : string)    (* [function (data) { router.on(route, name); }] *).

Definition boom : Error := mkError UserError "Error: boom at onOrder (app.js:12:11)".

(** [o[key] = v], on what [o] contains. *)
Definition set_member (key : string) (v : jsval) (o : jsval) : jsval :=
  match o with
  | VObj props => VObj (Router.put key v props)
  | _ => o
  end.

Definition run (b : behaviour) (arg : ref) (h : Host) (r : R) : outcome * Host * R :=
  match b with
  | Returning => (Returns, h, r)
  | Throwing v => (Throws v, h, r)
  | Setting key v => (Returns, write arg (set_member key v (content arg h)) h, r)
  | Registering route name =>
      match Router.on (VStr route) (Single (mkCallable name)) h r with
      | (Throw e, h', r') => (Throws e, h', r')
      | (_, h', r') => (Returns, h', r')
      end
  end.

(** The functions that do something else than return. *)
Definition behaviours : list (string * behaviour) :=
  [ ("onOrder", Throwing boom);
    ("careless", Throwing (Value VNull));
    ("brokenStamp", Throwing boom);
    ("brokenCount", Throwing boom);
    ("sign", Setting "signed" (VBool true));
    ("enlist", Registering "/orders" "late");
    ("redact", Setting "data" (VStr "***")) ].

Definition behaviour_of (f : callable) : behaviour :=
  match assoc (cname f) behaviours with
  | Some b => b
  | None => Returning
  end.


(** A function that leaves the router alone. *)
Definition apart (task : Task.t) : bool :=
  match behaviour_of (Task.fn task) with
  | Registering _ _ => false
  | _ => true
  end.

#[global] Instance program : Router.Callbacks Browser.socket :=
  {| Router.body := fun f _ arg => run (behaviour_of f) arg |}.

Definition handler (name : string) : callable := mkCallable name.

(** The turns allowed to each loop over the send hooks. *)
Definition steps : nat := 8.

Definition message (route action : string) (data : jsval) : jsval :=
  VObj [("route", VStr route); ("action", VStr action); ("data", data)].

(** [WebSocketRouter(url, null)]: the state in which the constructor
    leaves the host and the router. *)
Definition started : Host * R :=
  let '(_, h, r) := Router.new url VNull boot in (h, r).

Definition after {A} (script : M R A) (st : Host * R) : Host * R :=
  let '(_, h, r) := script (fst st) (snd st) in (h, r).

Definition result_of {A} (script : M R A) (st : Host * R) : result A :=
  fst (fst (script (fst st) (snd st))).

(** [router.send(v)], for an object literal [v]. *)
Definition sends (v : jsval) : M R unit :=
  m <- alloc v ;;
  Router.send steps m.

(** The socket of the router opens. *)
Definition socket_opens : M R unit :=
  Router.on_connection
    (c <- this_ ;;
     match ConnectionHandler.connection c with
     | Some w => ConnectionHandler.socket_becomes (Browser.opens (ConnectionHandler.handle w))
     | None => ret tt
     end).

(** *** Filters *)

Definition items_filters : jsval := VObj [("status", VStr "ok*")].

Definition items_registered : Host * R :=
  after (Router.update (VStr "/items/*") (Single (handler "onItem")) items_filters) started.

Definition confirmed : jsval :=
  message "/items/5" "UPDATE" (VObj [("status", VStr "ok-confirmed")]).

Definition no_data : jsval :=
  VObj [("route", VStr "/items/5"); ("action", VStr "UPDATE")].

Definition no_status : jsval :=
  message "/items/5" "UPDATE" (VObj [("id", VNum 5)]).

(** The same registration with the two texts exchanged. *)
Definition swapped_registered : Host * R :=
  after (Router.update (VStr "/items/*") (Single (handler "onItem"))
           (VObj [("status", VStr "ok-confirmed")])) started.

Definition swapped : jsval :=
  message "/items/5" "UPDATE" (VObj [("status", VStr "ok*")]).

(** *** Deferred events *)

Definition chat : jsval := message "/chat" "POST" VNull.

(** A, B and C registered in this order, B marked with [executeLast()];
    the registration code swallows what [executeLast] throws. *)
Definition abc_registered : Host * R :=
  after (_ <- Router.on (VStr "/chat") (Single (handler "A")) ;;
         b <- Router.on (VStr "/chat") (Single (handler "B")) ;;
         try_catch (Router.builder_executeLast b) (fun _ => ret tt) ;;;
         Router.on (VStr "/chat") (Single (handler "C"))) started.

(** The same, when nothing swallows it. *)
Definition abc_script : M R Router.Builder :=
  _ <- Router.on (VStr "/chat") (Single (handler "A")) ;;
  b <- Router.on (VStr "/chat") (Single (handler "B")) ;;
  Router.builder_executeLast b ;;;
  Router.on (VStr "/chat") (Single (handler "C")).

(** *** Intercept *)

Definition feed_message : jsval := message "/feed" "UPDATE" VNull.

Definition intercepting : Host * R :=
  after (Router.intercept (VStr "/feed") (Single (handler "tap"))) started.

(** The same route registered with [on]. *)
Definition listening : Host * R :=
  after (Router.on (VStr "/feed") (Single (handler "tap"))) started.

(** An [on] handler for another route, then an [intercept]. *)
Definition mixed : Host * R :=
  after (Router.on (VStr "/chat") (Single (handler "A")) ;;;
         Router.intercept (VStr "/feed") (Single (handler "tap"))) started.

(** *** Close *)

Definition hello : jsval := message "/hello" "CREATE" (VStr "hi").

(** [hello], once the hook [sign] has written it. *)
Definition signed_hello : jsval :=
  VObj [("route", VStr "/hello"); ("action", VStr "CREATE"); ("data", VStr "hi");
        ("signed", VBool true)].

(** A message sent before the socket has opened waits in the queue. *)
Definition hello_waiting : Host * R := after (sends hello) started.

Definition closed_while_connecting : Host * R := after Router.close hello_waiting.

(** The socket has opened and the queue has been flushed. *)
Definition opened_state (fuel : nat) (st : Host * R) : option (Host * R) :=
  let st' := after socket_opens st in
  match Router.opened fuel (fst st') (snd st') with
  | Some (_, h, r) => Some (h, r)
  | None => None
  end.

Definition socket_state (st : Host * R) : option Z :=
  match ConnectionHandler.connection (Router.connection (snd st)) with
  | Some w => Some (Browser.readyState (ConnectionHandler.handle w))
  | None => None
  end.

Definition socket_onopen (st : Host * R) : option (ConnectionHandler.listener) :=
  match ConnectionHandler.connection (Router.connection (snd st)) with
  | Some w => ConnectionHandler.onopen w
  | None => None
  end.

(** What the queued objects contain. *)
Definition queue_of (st : Host * R) : list jsval :=
  map (fun m => content m (fst st)) (ConnectionHandler.messageQueue (Router.connection (snd st))).

(** *** Flush *)

(** A message [JSON.stringify] cannot serialise. *)
Definition ledger : jsval := message "/ledger" "CREATE" (VObj [("amount", VBigInt 10)]).

Definition ledger_waiting : Host * R :=
  after socket_opens (after (Router.message steps ledger) started).

(** *** Handler failure *)

Definition order : jsval := message "/orders" "CREATE" (VObj [("id", VNum 7)]).

(** Three handlers for one route; the second throws an [Error]. *)
Definition orders_registered : Host * R :=
  after socket_opens
    (after (Router.on (VStr "/orders") (Single (handler "audit")) ;;;
            Router.on (VStr "/orders") (Single (handler "onOrder")) ;;;
            Router.on (VStr "/orders") (Single (handler "notify"))) started).

(** The same, the second throwing [null]. *)
Definition orders_careless : Host * R :=
  after socket_opens
    (after (Router.on (VStr "/orders") (Single (handler "audit")) ;;;
            Router.on (VStr "/orders") (Single (handler "careless")) ;;;
            Router.on (VStr "/orders") (Single (handler "notify"))) started).

(** Two handlers for one route; the first registers a third. *)
Definition orders_growing : Host * R :=
  after (Router.on (VStr "/orders") (Single (handler "enlist")) ;;;
         Router.on (VStr "/orders") (Single (handler "notify"))) started.

(** *** Send hooks *)

Definition hooked : Host * R :=
  after (Router.beforeSend (VStr "/hello") (handler "stamp") ;;;
         Router.afterSend (VStr "/hello") (handler "count") ;;;
         Router.beforeSend (VStr "/*") (handler "sign") ;;;
         Router.beforeSend (VStr "/other") (handler "unrelated")) started.

Definition hooked_open : Host * R := after socket_opens hooked.




(** *** Reconnection *)

Definition latency (k : nat) : Z := (20 + 5 * Z.of_nat k)%Z.

End Scenario.

(** ** Vocabulary for the further statements *)

(** A text without any character that means something in a pattern, the
    wildcard included. *)
Definition literal (s : string) : Prop :=
  Forall (fun c => Glob.syntax_character c = false) (list_ascii_of_string s).

(** A non-empty text without [/]. *)
Definition one_segment (s : string) : Prop :=
  s <> "" /\ Forall (fun c => c <> "/"%char) (list_ascii_of_string s).

(** The event is selected for the message, without an error. *)
Definition selects (data : jsval) (evt : Event.t) : bool :=
  match Router.shouldEventExecute data evt with
  | Normal true => true
  | _ => false
  end.

(** The entries an event contributes to a run-list. *)
Definition bound_handlers (ctx : jsval) (evt : Event.t) : list Router.bound :=
  let this := if truthy (Event.bind evt) then Event.bind evt else ctx in
  match Event.fn evt with
  | Single f => [(f, this)]
  | Many fs => map (fun f => (f, this)) fs
  end.

(** The identities given to events so far are below the next one. *)
Definition fresh_ids {Sock : Type} (r : Router.t Sock) : Prop :=
  Forall (fun e => Event.eid e < Router.next_eid r) (Router.events r ++ Router.lastEvents r).

(** A caller sending several messages in a row. *)
Fixpoint send_each {Sock : Type} {T : Transport Sock} (ms : list ref)
  : M (ConnectionHandler.t Sock) unit :=
  match ms with
  | [] => ret tt
  | m :: ms' => ConnectionHandler.send m ;;; send_each ms'
  end.

(** What a filter entry and the message's value for its key give when
    both are compared as texts. *)
Definition same_text (ds : list (string * jsval)) (kf : string * string) : bool :=
  match assoc (fst kf) ds with
  | Some (VStr d) => String.eqb d (snd kf)
  | _ => false
  end.

(** A hook that leaves the router and the trace to the router: whatever
    it is called with, it returns or throws after writing objects only. *)
Definition writes_objects_only {Sock : Type} {P : Router.Callbacks Sock} (f : callable) : Prop :=
  forall this m h (r : Router.t Sock),
    exists o s, Router.body f this m h r = (o, with_store s h, r).

(** A hook call that [Router.send] may make: a registered task of one of
    the two positions [send] runs, called on the default context. *)
Definition hook_call {Sock : Type} (r : Router.t Sock) (o : obs) : Prop :=
  match o with
  | Called name this _ =>
      this = Router.ctx r /\
      exists task, In task (Router.registeredTasks r) /\
                   (Task.position task = "BEFORE" \/ Task.position task = "AFTER;") /\
                   name = cname (Task.fn task)
  | Sent _ => True
  | _ => False
  end.

(* ================================================================== *)
(** * Statements: pattern compilation *)
(* ================================================================== *)

Example routify_users_source : routify_source "/users/*" = "^\/users\/[^\/]+$".
Proof. reflexivity. Qed.

Example routify_users_1 : matches "/users/*" "/users/42" = Normal true.
Proof. vm_compute. reflexivity. Qed.

Example routify_users_2 : matches "/users/*" "/users/42/x" = Normal false.
Proof. vm_compute. reflexivity. Qed.

Example routify_users_3 : matches "/users/*" "/users" = Normal false.
Proof. vm_compute. reflexivity. Qed.

Example routify_dot : matches "a.c" "abc" = Normal true.
Proof. vm_compute. reflexivity. Qed.

Example routify_bar : matches "a|b" "axyz" = Normal true.
Proof. vm_compute. reflexivity. Qed.

Example routify_paren : exists e, matches "(" "(" = Throw e.
Proof. vm_compute. eexists. reflexivity. Qed.

Module PatternFacts.
Import RegExp Glob.

Lemma list_ascii_app x y :
  list_ascii_of_string (x ++ y)%string = list_ascii_of_string x ++ list_ascii_of_string y.
Proof. induction x as [|a x IH]; simpl; [reflexivity|now rewrite IH]. Qed.

Lemma syntax_character_false c :
  syntax_character c = false ->
  Ascii.eqb c "^" = false /\ Ascii.eqb c "$" = false /\ Ascii.eqb c "\" = false /\
  Ascii.eqb c "." = false /\ Ascii.eqb c "*" = false /\ Ascii.eqb c "+" = false /\
  Ascii.eqb c "?" = false /\ Ascii.eqb c "(" = false /\ Ascii.eqb c ")" = false /\
  Ascii.eqb c "[" = false /\ Ascii.eqb c "]" = false /\ Ascii.eqb c "{" = false /\
  Ascii.eqb c "}" = false /\ Ascii.eqb c "|" = false.
Proof.
  unfold syntax_character, mem_ascii. cbn [existsb]. intros H.
  repeat (apply orb_false_elim in H; destruct H as [? H]).
  repeat split; assumption.
Qed.

(** One character of the route, once escaped, moves the parser by
    [feed_char]. *)
Lemma prun_escaped_char c st rest :
  mode st = PNormal ->
  (c = "*"%char \/ syntax_character c = false) ->
  prun st (list_ascii_of_string (escaped (String c EmptyString)) ++ rest)
  = prun (feed_char st c) rest.
Proof.
  intros Hm [-> | Hc].
  - destruct st as [m tp gs l]; simpl in Hm; subst m.
    reflexivity.
  - destruct (syntax_character_false _ Hc)
      as (H1 & H2 & H3 & H4 & H5 & H6 & H7 & H8 & H9 & H10 & H11 & H12 & H13 & H14).
    unfold feed_char, escaped. rewrite H5. simpl replace_all. rewrite H5.
    destruct (Ascii.eqb c "/") eqn:Hs.
    + apply Ascii.eqb_eq in Hs; subst c. simpl.
      destruct st as [m tp gs l]; simpl in Hm; subst m. reflexivity.
    + simpl replace_all. rewrite Hs. simpl.
      unfold pstep. rewrite Hm, H3, H10, H8, H9, H14, H5, H6, H7, H12, H1, H2, H4.
      reflexivity.
Qed.

Lemma feed_char_mode st c : mode (feed_char st c) = PNormal.
Proof. unfold feed_char. destruct (Ascii.eqb c "*"); reflexivity. Qed.

Lemma escaped_cons c route :
  escaped (String c route) = (escaped (String c EmptyString) ++ escaped route)%string.
Proof.
  unfold escaped. destruct (Ascii.eqb c "*") eqn:E.
  - apply Ascii.eqb_eq in E; subst c. reflexivity.
  - cbn [replace_all]. rewrite E. cbn [replace_all].
    destruct (Ascii.eqb c "/"); reflexivity.
Qed.

Lemma prun_escaped route : forall st rest,
  mode st = PNormal ->
  plain_route route ->
  prun st (list_ascii_of_string (escaped route) ++ rest)
  = prun (feed st (list_ascii_of_string route)) rest.
Proof.
  induction route as [|c route IH]; intros st rest Hm Hp.
  - reflexivity.
  - inversion Hp as [|? ? Hc Hp']; subst.
    rewrite escaped_cons, list_ascii_app, <- app_assoc.
    rewrite prun_escaped_char by assumption.
    simpl. apply IH; [apply feed_char_mode | exact Hp'].
Qed.

Lemma feed_shape route : forall st,
  mode st = PNormal ->
  mode (feed st route) = PNormal /\
  alts (top (feed st route)) = alts (top st) /\
  open_groups (feed st route) = open_groups st /\
  cur (top (feed st route)) = rev (map term_of route) ++ cur (top st).
Proof.
  induction route as [|c route IH]; intros st Hm; simpl.
  - auto.
  - destruct (IH (feed_char st c) (feed_char_mode st c)) as (A & B & C & D).
    rewrite A, B, C, D. unfold feed_char, term_of.
    destruct (Ascii.eqb c "*"); simpl; rewrite <- app_assoc; auto.
Qed.

Lemma routify_plain route :
  plain_route route -> routify (VStr route) = Normal (pattern_of route).
Proof.
  intros Hp. unfold routify, new, routify_source.
  change ("^" ++ replace_all "/" "\/" (replace_all "*" "[^/]+" route) ++ "$")%string
    with (String "^" (escaped route ++ "$")%string).
  cbn [list_ascii_of_string prun]. rewrite list_ascii_app.
  change (pstep pstart "^") with (POk (push_term Bol IsAssertion pstart)).
  cbv iota.
  rewrite prun_escaped by (auto using Hp).
  set (st0 := push_term Bol IsAssertion pstart).
  destruct (feed_shape (list_ascii_of_string route) st0 eq_refl) as (A & B & C & D).
  destruct (feed st0 (list_ascii_of_string route)) as [m [al cu] gs l] eqn:E.
  simpl in A, B, C, D. subst m al gs cu.
  simpl. unfold pfinish, push_term, close_frame, pattern_of.
  cbn [mode open_groups top alts cur app rev].
  rewrite rev_app_distr, rev_involutive. reflexivity.
Qed.

(** ** The matcher on such a pattern *)

Lemma not_slash_spec x : not_slash x = true <-> x <> "/"%char.
Proof.
  unfold not_slash, mem_ascii. simpl. rewrite orb_false_r.
  destruct (Ascii.eqb x "/") eqn:E; simpl.
  - apply Ascii.eqb_eq in E. split; [discriminate | congruence].
  - apply Ascii.eqb_neq in E. tauto.
Qed.

Lemma repeat_one_char ok k : forall fuel s,
  List.length s <= fuel ->
  (repeat_matcher (one_char ok) fuel false s k = true <->
   exists seg rest, s = seg ++ rest /\ Forall (fun x => ok x = true) seg /\ k false rest = true).
Proof.
  induction fuel as [|fuel IH]; intros s Hlen.
  - destruct s; [|simpl in Hlen; lia]. simpl. split.
    + intros H. exists [], []. auto.
    + intros (seg & rest & E & _ & H). symmetry in E. apply app_eq_nil in E as [-> ->]. exact H.
  - cbn [repeat_matcher]. rewrite orb_true_iff. split.
    + intros [H | H].
      * destruct s as [|x s']; [discriminate|]. cbn [one_char] in H.
        destruct (ok x) eqn:Hx; [|discriminate].
        assert (L : (List.length s' <? List.length (x :: s'))%nat = true)
          by (apply Nat.ltb_lt; simpl; lia).
        rewrite L in H. apply IH in H; [|simpl in Hlen; lia].
        destruct H as (seg & rest & -> & Hall & Hk).
        exists (x :: seg), rest. auto.
      * exists [], s. auto.
    + intros (seg & rest & -> & Hall & Hk).
      destruct seg as [|x seg]; [right; exact Hk|left].
      inversion Hall as [|? ? Hx Hall']; subst.
      cbn [one_char app]. rewrite Hx.
      assert (L : (List.length (seg ++ rest) <? List.length (x :: seg ++ rest))%nat = true)
        by (apply Nat.ltb_lt; simpl; lia).
      rewrite L. apply IH; [simpl in Hlen; lia|].
      exists seg, rest. auto.
Qed.

Lemma segment_spec b s k :
  compile_matcher segment b s k = true <->
  exists seg rest, s = seg ++ rest /\ seg <> [] /\
                   Forall (fun x => x <> "/"%char) seg /\ k false rest = true.
Proof.
  unfold segment. cbn [compile_matcher].
  fold not_slash. change (fun x => xorb true (mem_ascii x ["/"%char])) with not_slash.
  destruct s as [|x s']; cbn [one_char].
  - split; [discriminate|].
    intros (seg & rest & E & Hne & _). destruct seg; [congruence | discriminate].
  - destruct (not_slash x) eqn:Hx.
    + rewrite repeat_one_char by lia. split.
      * intros (seg & rest & -> & Hall & Hk). exists (x :: seg), rest.
        repeat split; [discriminate| |exact Hk].
        constructor; [now apply not_slash_spec|].
        eapply Forall_impl; [|exact Hall]. intros a. apply not_slash_spec.
      * intros (seg & rest & E & Hne & Hall & Hk).
        destruct seg as [|y seg]; [congruence|]. injection E as -> ->.
        inversion Hall; subst. exists seg, rest. repeat split; [|exact Hk].
        eapply Forall_impl; [|eassumption]. intros a. apply not_slash_spec.
    + split; [discriminate|].
      intros (seg & rest & E & Hne & Hall & _).
      destruct seg as [|y seg]; [congruence|]. injection E as -> ->.
      inversion Hall as [|? ? Hy _]; subst. apply not_slash_spec in Hy. congruence.
Qed.

Lemma terms_spec route : forall b s,
  compile_matcher (seq_of (map term_of route ++ [Eol])) b s accept = true <-> glob route s.
Proof.
  induction route as [|c route IH]; intros b s.
  - simpl. destruct s; split; intros H; try reflexivity; discriminate.
  - cbn [map app seq_of compile_matcher glob].
    destruct (Ascii.eqb c "*") eqn:Hc.
    + replace (term_of c) with segment by (unfold term_of; now rewrite Hc).
      rewrite segment_spec. split.
      * intros (seg & rest & E & Hne & Hall & Hk). exists seg, rest.
        repeat split; auto. now apply (IH false).
      * intros (seg & rest & E & Hne & Hall & Hk). exists seg, rest.
        repeat split; auto. now apply (IH false).
    + replace (term_of c) with (Chr c) by (unfold term_of; now rewrite Hc).
      cbn [compile_matcher]. unfold one_char. destruct s as [|x s'].
      * split; [discriminate|]. intros (rest & E & _). discriminate.
      * destruct (Ascii.eqb c x) eqn:Hx.
        -- apply Ascii.eqb_eq in Hx; subst x. cbv beta. rewrite IH. split.
           ++ intros H. exists s'. auto.
           ++ intros (rest & E & H). injection E as ->. exact H.
        -- apply Ascii.eqb_neq in Hx. split; [discriminate|].
           intros (rest & E & _). injection E as ? ?. congruence.
Qed.

Lemma anchored_not_later r : forall s,
  search_from (Seq Bol r) false s = false.
Proof. induction s as [|x s IH]; simpl; [reflexivity | exact IH]. Qed.

Lemma pattern_of_spec route s :
  test (pattern_of route) s = true <-> accepts route s.
Proof.
  unfold test, accepts, pattern_of.
  destruct (list_ascii_of_string s) as [|x s'] eqn:E.
  - cbn [search_from compile_matcher]. rewrite orb_false_r. apply terms_spec.
  - cbn [search_from]. rewrite anchored_not_later, orb_false_r.
    cbn [compile_matcher]. apply terms_spec.
Qed.

End PatternFacts.

(* ================================================================== *)
(** * Statements: the connection *)
(* ================================================================== *)

Unset Implicit Arguments.

Section ConnectionFacts.
Context {Sock : Type} {T : Transport Sock}.
Import ConnectionHandler.

Lemma connect_eq (h : Host) (c : t Sock) :
  connect h c =
  (Normal tt,
   log (Connected (clock h)) h,
   mk (connection_query c) (messageQueue c) (connectionsAttemp c + 1)
      (Some (fresh_socket (connection_query c))) (onopen_own c)).
Proof. reflexivity. Qed.

Lemma reconnect_eq (h : Host) (c : t Sock) :
  reconnect h c =
  if (connectionsAttemp c <? 10)%Z
  then (Normal tt,
        mkHost (clock h) (timers h ++ [(clock h + 1000)%Z]) (console h) (trace h) (store h), c)
  else (Normal tt,
        printed (Value (VStr ("10 Attemps to connect failed to the server "
                              ++ connection_query c ++ ". Is server up?")%string)) h, c).
Proof.
  unfold reconnect, mbind, this_. destruct (connectionsAttemp c <? 10)%Z; reflexivity.
Qed.

Lemma never_opens_from (latency : nat -> Z) : forall more fuel k h (c : t Sock) w,
  more < fuel ->
  connection c = Some w ->
  onclose w = Some reconnect_bound ->
  timers h = [] ->
  connectionsAttemp c = (10 - Z.of_nat more)%Z ->
  trace (fst (never_opens latency k fuel h c))
    = trace h ++ failing_trace latency k (clock h) more /\
  timers (fst (never_opens latency k fuel h c)) = [] /\
  connectionsAttemp (snd (never_opens latency k fuel h c)) = 10%Z.
Proof.
  induction more as [|more IH]; intros fuel k h c w Hfuel Hc Hw Ht Ha;
    (destruct fuel as [|fuel]; [lia|]); cbn [never_opens].
  - unfold closed, mbind, host_, emit, modify_host, this_, elapse.
    cbn [clock timers console trace store]. rewrite Hc, Hw, reconnect_eq.
    assert (E : (connectionsAttemp c <? 10)%Z = false) by (apply Z.ltb_ge; lia).
    rewrite E. cbn. rewrite Ht. cbn. auto.
  - unfold closed, mbind, host_, emit, modify_host, this_, elapse.
    cbn [clock timers console trace store]. rewrite Hc, Hw, reconnect_eq.
    assert (E : (connectionsAttemp c <? 10)%Z = true) by (apply Z.ltb_lt; lia).
    rewrite E. cbn [clock timers console trace store]. rewrite Ht. cbn [app].
    unfold fire_timer, mbind, host_, modify_host. cbn [clock timers console trace store].
    rewrite connect_eq. unfold log. cbn [clock timers console trace store].
    replace (Z.max (clock h + latency k) (clock h + latency k + 1000))
      with (clock h + latency k + 1000)%Z by lia.
    match goal with
    | |- context [never_opens latency (S k) fuel ?h' ?c'] =>
        destruct (IH fuel (S k) h' c' (fresh_socket (connection_query c)))
          as (A & B & C); [lia | reflexivity | reflexivity | reflexivity
            | cbn [connectionsAttemp]; rewrite Ha; lia |]
    end.
    cbn [clock trace] in A. rewrite A, B, C. cbn [failing_trace].
    rewrite <- !app_assoc. cbn [app]. auto.
Qed.

(** [send], case by case: the frame is handed to the socket, which is the
    only change; or the object goes onto the queue, which is the only
    change. *)
Lemma connection_send_eq (message : ref) (h : Host) (c : t Sock) :
  send message h c =
  if has_bigint (content message h)
  then (Normal tt, h, set_messageQueue (messageQueue c ++ [message]) c)
  else
    match connection c with
    | None => (Normal tt, h, set_messageQueue (messageQueue c ++ [message]) c)
    | Some w =>
        match ws_send (handle w) (content message h) with
        | None => (Normal tt, h, set_messageQueue (messageQueue c ++ [message]) c)
        | Some s' =>
            (Normal tt, log (Sent (content message h)) h,
             set_connection (Some (mkWebSocket s' (onopen w) (onclose w) (onmessage w))) c)
        end
    end.
Proof.
  unfold send, try_catch, mbind, host_, lift, JSON_stringify.
  destruct (has_bigint (content message h)); [reflexivity|].
  unfold socket_send, mbind, this_.
  destruct (connection c) as [w|]; [|reflexivity].
  destruct (ws_send (handle w) (content message h)) as [s'|]; reflexivity.
Qed.

(** A message [JSON.stringify] rejects goes back onto the queue, whatever
    the socket. *)
Lemma send_unserialisable (message : ref) (h : Host) (c : t Sock) :
  has_bigint (content message h) = true ->
  send message h c = (Normal tt, h, set_messageQueue (messageQueue c ++ [message]) c).
Proof. intros Hb. rewrite connection_send_eq, Hb. reflexivity. Qed.

(** [send] never throws and leaves the objects as they are: what it
    returns is the state with the frame handed to the socket, or with
    the object appended to the queue. *)
Lemma connection_send_cases (message : ref) (h : Host) (c : t Sock) :
  (exists c', send message h c = (Normal tt, log (Sent (content message h)) h, c') /\
              messageQueue c' = messageQueue c /\
              connectionsAttemp c' = connectionsAttemp c) \/
  send message h c = (Normal tt, h, set_messageQueue (messageQueue c ++ [message]) c).
Proof.
  rewrite connection_send_eq.
  destruct (has_bigint (content message h)); [right; reflexivity|].
  destruct (connection c) as [w|]; [|right; reflexivity].
  destruct (ws_send (handle w) (content message h)) as [s'|]; [|right; reflexivity].
  left. eexists. repeat split; reflexivity.
Qed.

Lemma send_refused (message : ref) (h : Host) (c : t Sock) w :
  connection c = Some w ->
  (forall frame, ws_send (handle w) frame = None) ->
  send message h c = (Normal tt, h, set_messageQueue (messageQueue c ++ [message]) c).
Proof.
  intros Ew Hno. rewrite connection_send_eq, Ew, Hno.
  destruct (has_bigint (content message h)); reflexivity.
Qed.

(** While a message that cannot be serialised lies at or after the
    cursor, the loop of [flush] is still running, however long one
    waits. *)
Lemma flush_loop_stuck : forall fuel i h (c : t Sock) j message,
  i <= j ->
  nth_error (messageQueue c) j = Some message ->
  has_bigint (content message h) = true ->
  flush_loop fuel i h c = None.
Proof.
  induction fuel as [|fuel IH]; intros i h c j message Hij Hj Hb; [reflexivity|].
  cbn [flush_loop].
  destruct (nth_error (messageQueue c) i) as [m|] eqn:Hi.
  - destruct (Nat.eq_dec i j) as [->|Hne].
    + rewrite Hj in Hi. injection Hi as <-.
      rewrite send_unserialisable by assumption.
      apply (IH _ _ _ (List.length (messageQueue c)) message).
      * assert (j < List.length (messageQueue c)) by (apply nth_error_Some; congruence).
        lia.
      * cbn. rewrite nth_error_app2 by lia. now rewrite Nat.sub_diag.
      * assumption.
    + destruct (connection_send_cases m h c) as [(c' & E & Q & _) | E]; rewrite E.
      * apply (IH _ _ _ j message); [lia | now rewrite Q | assumption].
      * apply (IH _ _ _ j message); [lia | | assumption].
        cbn. rewrite nth_error_app1; [assumption|]. apply nth_error_Some. congruence.
  - exfalso. apply nth_error_None in Hi.
    assert (j < List.length (messageQueue c)) by (apply nth_error_Some; congruence). lia.
Qed.

Lemma flush_stuck fuel h (c : t Sock) j message :
  nth_error (messageQueue c) j = Some message ->
  has_bigint (content message h) = true ->
  flush fuel h c = None.
Proof.
  intros Hj Hb. unfold flush.
  assert (E : flush_loop fuel 0 h (set_connectionsAttemp 0 c) = None)
    by (eapply flush_loop_stuck; [| exact Hj | exact Hb]; lia).
  now rewrite E.
Qed.

Lemma flush_loop_S fuel i h (c : t Sock) :
  flush_loop (S fuel) i h c =
  match nth_error (messageQueue c) i with
  | None => Some (Normal tt, h, c)
  | Some message =>
      match send message h c with
      | (Normal _, h', c') => flush_loop fuel (S i) h' c'
      | other => Some other
      end
  end.
Proof. reflexivity. Qed.

Lemma skipn_nth_error {A} : forall (l : list A) i x,
  nth_error l i = Some x -> skipn i l = x :: skipn (S i) l.
Proof.
  induction l as [|y l IH]; intros i x E.
  - destruct i; discriminate.
  - destruct i; [injection E as ->; reflexivity | cbn; apply IH; exact E].
Qed.

Lemma logs_log o tr h : logs tr (log o h) = logs (o :: tr) h.
Proof. unfold logs, log. cbn. now rewrite <- app_assoc. Qed.

Lemma logs_nil h : logs [] h = h.
Proof. unfold logs. rewrite app_nil_r. destruct h; reflexivity. Qed.

(** When the socket takes every frame, goes on taking them, and every
    queued message can be serialised, the loop hands the queue to the
    socket, first in first out, and ends. *)
Lemma flush_loop_accepted (P : Sock -> Prop) :
  (forall s frame, P s -> exists s', ws_send s frame = Some s' /\ P s') ->
  forall n extra i h (c : t Sock) w,
    connection c = Some w -> P (handle w) ->
    Forall (fun m => has_bigint (content m h) = false) (messageQueue c) ->
    List.length (messageQueue c) = i + n ->
    exists c' w',
      flush_loop (S n + extra) i h c
      = Some (Normal tt,
              logs (map (fun m => Sent (content m h)) (skipn i (messageQueue c))) h, c') /\
      messageQueue c' = messageQueue c /\
      connectionsAttemp c' = connectionsAttemp c /\
      connection c' = Some w' /\ P (handle w') /\
      onopen w' = onopen w /\ onclose w' = onclose w /\ onmessage w' = onmessage w.
Proof.
  intros Hacc. induction n as [|n IH]; intros extra i h c w Ew Pw Hq Hlen.
  - change (1 + extra) with (S extra). rewrite flush_loop_S.
    assert (E : nth_error (messageQueue c) i = None) by (apply nth_error_None; lia).
    rewrite E. exists c, w. repeat split; auto.
    rewrite skipn_all2 by lia. cbn [map]. now rewrite logs_nil.
  - change (S (S n) + extra) with (S (S n + extra)). rewrite flush_loop_S.
    destruct (nth_error (messageQueue c) i) as [m|] eqn:E;
      [|apply nth_error_None in E; lia].
    assert (Hm : has_bigint (content m h) = false)
      by (eapply Forall_forall in Hq; [exact Hq | eapply nth_error_In; exact E]).
    destruct (Hacc (handle w) (content m h) Pw) as (s' & Es & Ps').
    rewrite connection_send_eq, Hm, Ew, Es.
    match goal with
    | |- context [flush_loop _ (S i) ?h1 ?c1] =>
        destruct (IH extra (S i) h1 c1 (mkWebSocket s' (onopen w) (onclose w) (onmessage w)))
          as (c' & w' & A & B & C & D & F & G1 & G2 & G3);
          [reflexivity | exact Ps' | exact Hq | cbn [messageQueue set_connection]; lia |]
    end.
    exists c', w'. rewrite A. repeat split; auto.
    cbn [messageQueue set_connection]. rewrite (skipn_nth_error _ _ _ E). cbn [map].
    rewrite logs_log. reflexivity.
Qed.

End ConnectionFacts.
(* ================================================================== *)
(** * Statements: the router *)
(* ================================================================== *)

Lemma called_names_app a b : called_names (a ++ b) = called_names a ++ called_names b.
Proof. apply flat_map_app. Qed.

Lemma sent_frames_app a b : sent_frames (a ++ b) = sent_frames a ++ sent_frames b.
Proof. apply flat_map_app. Qed.

Lemma with_store_same h : with_store (store h) h = h.
Proof. destruct h; reflexivity. Qed.

Lemma with_store_step s1 st o tr h :
  with_store st (logs tr (with_store s1 (log o h))) = with_store st (logs (o :: tr) h).
Proof. unfold with_store, logs, log. cbn. now rewrite <- app_assoc. Qed.

Lemma logs_app a b h : logs b (logs a h) = logs (a ++ b) h.
Proof. unfold logs. cbn. now rewrite app_assoc. Qed.


Section RouterFacts.
Context {Sock : Type} {T : Transport Sock} {P : Router.Callbacks Sock}.
Import Router.

Lemma call_eq (f : callable) (this : jsval) (arg : ref) (h : Host) (r : t Sock) :
  call f this arg h r =
  match body f this arg (log (Called (cname f) this (content arg h)) h) r with
  | (Returns, h', r') => (Normal tt, h', r')
  | (Throws e, h', r') => (Throw e, h', r')
  end.
Proof. reflexivity. Qed.


Lemma executeTaks_from_S fuel i (data : ref) position h (r : t Sock) :
  executeTaks_from (S fuel) i data position h r =
  match nth_error (registeredTasks r) i with
  | None => (Normal tt, h, r)
  | Some task =>
      match shouldTaskExecute (content data h) task position with
      | Normal true =>
          match call (Task.fn task) (ctx r) data h r with
          | (Normal _, h', r') => executeTaks_from fuel (S i) data position h' r'
          | (Throw e, h', r') => (Throw e, h', r')
          | (Unmodelled, h', r') => (Unmodelled, h', r')
          | (Running, h', r') => (Running, h', r')
          end
      | Normal false => executeTaks_from fuel (S i) data position h r
      | Throw e => (Throw e, h, r)
      | Unmodelled => (Unmodelled, h, r)
      | Running => (Running, h, r)
      end
  end.
Proof.
  cbn [executeTaks_from]. unfold mbind at 1. unfold this_ at 1.
  destruct (nth_error (registeredTasks r) i) as [task|]; [|reflexivity].
  unfold mbind at 1. unfold host_ at 1. unfold mbind at 1. unfold lift at 1.
  destruct (shouldTaskExecute (content data h) task position) as [[|]|e| |]; reflexivity.
Qed.




(** [ConnectionHandler.send] as [Router.send] runs it. *)
Lemma on_connection_send (message : ref) (h : Host) (r : t Sock) :
  exists h2 c2,
    ConnectionHandler.send message h (connection r) = (Normal tt, h2, c2) /\
    on_connection (ConnectionHandler.send message) h r = (Normal tt, h2, set_connection c2 r).
Proof.
  unfold on_connection.
  destruct (connection_send_cases message h (connection r)) as [(c' & E & _) | E];
    rewrite E; eexists _, _; split; reflexivity.
Qed.

(** [Router.send], unfolded along its three phases. *)
Lemma send_eq (fuel : nat) (message : ref) (h : Host) (r : t Sock) :
  send fuel message h r =
  match executeTaks fuel message BEFORE h r with
  | (Normal _, h1, r1) =>
      let '(_, h2, c2) := ConnectionHandler.send message h1 (connection r1) in
      match executeTaks fuel message AFTER h2 (set_connection c2 r1) with
      | (Normal _, h3, r3) => (Normal tt, h3, r3)
      | (Throw e, h3, r3) => (Normal tt, printed e h3, r3)
      | (Unmodelled, h3, r3) => (Unmodelled, h3, r3)
      | (Running, h3, r3) => (Running, h3, r3)
      end
  | (Throw e, h1, r1) => (Normal tt, printed e h1, r1)
  | (Unmodelled, h1, r1) => (Unmodelled, h1, r1)
  | (Running, h1, r1) => (Running, h1, r1)
  end.
Proof.
  unfold send, try_catch, mbind.
  destruct (executeTaks fuel message BEFORE h r) as [[[u|e| |] h1] r1]; try reflexivity.
  destruct (on_connection_send message h1 r1) as (h2 & c2 & E & E'). rewrite E, E'.
  destruct (executeTaks fuel message AFTER h2 (set_connection c2 r1)) as [[[[]|e| |] h3] r3];
    reflexivity.
Qed.


Lemma run_each_app : forall pre rest (data : ref) h (r : t Sock),
  run_each (pre ++ rest) data h r =
  match run_each pre data h r with
  | (Normal _, h1, r1) => run_each rest data h1 r1
  | (Throw e, h1, r1) => (Throw e, h1, r1)
  | (Unmodelled, h1, r1) => (Unmodelled, h1, r1)
  | (Running, h1, r1) => (Running, h1, r1)
  end.
Proof.
  induction pre as [|[f this] pre IH]; intros rest data h r.
  - reflexivity.
  - cbn [app run_each]. unfold mbind.
    destruct (call f this data h r) as [[[u|e| |] h1] r1]; [apply IH | reflexivity ..].
Qed.

Lemma runner_eq (fuel : nat) (run : list bound) (data : ref) (h : Host) (r : t Sock) :
  runner fuel run data h r =
  match run_each run data h r with
  | (Normal _, h', r') => (Normal tt, h', r')
  | (Throw e, h', r') =>
      match ExceptionHandler e with
      | Normal payload => error fuel payload h' r'
      | Throw e' => (Throw e', h', r')
      | Unmodelled => (Unmodelled, h', r')
      | Running => (Running, h', r')
      end
  | (Unmodelled, h', r') => (Unmodelled, h', r')
  | (Running, h', r') => (Running, h', r')
  end.
Proof.
  unfold runner, try_catch, mbind, lift.
  destruct (run_each run data h r) as [[[[]|e| |] h'] r']; reflexivity.
Qed.

Lemma dispatch_eq (fuel : nat) (data : jsval) (h : Host) (r : t Sock) run0 run payload :
  collect r data (events r) [] = Normal run0 ->
  collect r data (lastEvents r) run0 = Normal run ->
  get data "data" = Normal payload ->
  dispatch fuel data h r = (arg <- alloc payload ;; runner fuel run arg) h r.
Proof.
  intros A B C. unfold dispatch. unfold mbind at 1. unfold this_ at 1.
  unfold mbind at 1, lift at 1. rewrite A.
  unfold mbind at 1, lift at 1. rewrite B.
  unfold mbind at 1, lift at 1. rewrite C. reflexivity.
Qed.

(** Which handlers a message selects depends on the tables of the router
    and on the default context, and on nothing else. *)
Lemma collect_tables : forall evts (r r' : t Sock) data run,
  ctx r' = ctx r -> collect r' data evts run = collect r data evts run.
Proof.
  induction evts as [|evt evts IH]; intros r r' data run Hc; [reflexivity|].
  cbn [collect]. destruct (shouldEventExecute data evt) as [go| | |]; cbn [rbind]; auto.
  unfold applyToQueue. rewrite Hc. now apply IH.
Qed.

(** Without send hooks, [Router.send] is [ConnectionHandler.send]. *)
Lemma send_without_hooks (fuel : nat) (message : ref) (h : Host) (r : t Sock) :
  registeredTasks r = [] ->
  send (S fuel) message h r = on_connection (ConnectionHandler.send message) h r.
Proof.
  intros E. rewrite send_eq. unfold executeTaks. rewrite executeTaks_from_S, E. cbn [nth_error].
  destruct (on_connection_send message h r) as (h2 & c2 & S1 & S2). rewrite S1, S2.
  rewrite executeTaks_from_S. cbn [registeredTasks set_connection]. rewrite E. reflexivity.
Qed.

End RouterFacts.

(* ================================================================== *)
(** * Statements that hold for every socket and every caller *)
(* ================================================================== *)

Lemma with_store_phases st3 st1 a b c h :
  with_store st3 (logs a (logs b (with_store st1 (logs c h))))
  = with_store st3 (logs (c ++ b ++ a) h).
Proof. unfold with_store, logs. cbn. now rewrite !app_assoc. Qed.

Section Claims.
Context {Sock : Type} {T : Transport Sock} {P : Router.Callbacks Sock}.

(** C2. Retry ceiling. When every connection attempt ends in a closure
    without an opening, [connect] is called exactly ten times however
    long the run is continued: once by the constructor, then each time
    1000 ms after the closure of the attempt before; after the tenth
    closure no timeout is pending, and [reconnect] schedules nothing
    once [connectionsAttemp] has reached 10. *)
Theorem retry_ceiling (url : string) (latency : nat -> Z) (fuel : nat) :
  10 <= fuel ->
  let '(_, h0, c0) := ConnectionHandler.new (T := T) url boot in
  let '(h, c) := ConnectionHandler.never_opens latency 0 fuel h0 c0 in
  List.length (connect_times (trace h)) = 10 /\
  List.length (close_times (trace h)) = 10 /\
  (forall i, i < 9 ->
     nth (S i) (connect_times (trace h)) 0%Z
     = (nth i (close_times (trace h)) 0 + 1000)%Z) /\
  timers h = [] /\
  ConnectionHandler.connectionsAttemp c = 10%Z /\
  (forall h' (c' : ConnectionHandler.t Sock),
     (10 <= ConnectionHandler.connectionsAttemp c')%Z ->
     timers (snd (fst (ConnectionHandler.reconnect h' c'))) = timers h').
Proof.
  intros Hfuel. unfold ConnectionHandler.new. rewrite connect_eq.
  match goal with
  | |- context [ConnectionHandler.never_opens latency 0 fuel ?h0 ?c0] =>
      pose proof (@never_opens_from Sock T latency 9 fuel 0 h0 c0
                    (ConnectionHandler.fresh_socket url))
        as (A & B & C); [lia | reflexivity | reflexivity | reflexivity | reflexivity |];
      destruct (ConnectionHandler.never_opens latency 0 fuel h0 c0) as [h c]
  end.
  cbn [fst snd trace clock boot app log] in A, B, C. rewrite A.
  repeat split; try assumption; try reflexivity.
  - intros i Hi. cbn.
    do 9 (destruct i as [|i]; [reflexivity|]). lia.
  - intros h' c' Hc. rewrite reconnect_eq.
    assert (E : (ConnectionHandler.connectionsAttemp c' <? 10)%Z = false)
      by (apply Z.ltb_ge; exact Hc).
    now rewrite E.
Qed.




End Claims.

(* ================================================================== *)
(** * Statements: patterns and the concrete runs *)
(* ================================================================== *)

(** C6, as amended. For a route in which [*] is the only character with a
    meaning in a regular expression, [routify] yields a pattern that
    accepts a candidate exactly when the whole candidate reads as the
    route, each [*] standing for one or more characters other than [/]
    and every other character for itself; so the pattern of [/users/*]
    accepts [/users/42] and neither [/users/42/x] nor [/users]. *)
Theorem routify_plain_route :
  (forall route, Glob.plain_route route ->
     exists r, routify (VStr route) = Normal r /\
       forall candidate, RegExp.test r candidate = true <-> Glob.accepts route candidate) /\
  matches "/users/*" "/users/42" = Normal true /\
  matches "/users/*" "/users/42/x" = Normal false /\
  matches "/users/*" "/users" = Normal false.
Proof.
  split; [|repeat split; vm_compute; reflexivity].
  intros route Hp. exists (Glob.pattern_of route).
  split; [now apply PatternFacts.routify_plain|].
  intros candidate. apply PatternFacts.pattern_of_spec.
Qed.

(** C6, as stated, fails on a route with a dot: the pattern of [a.c]
    accepts [abc], in which the dot of the route is not matched by
    itself. *)
Lemma routify_dot_is_not_literal :
  exists r, routify (VStr "a.c") = Normal r /\
            RegExp.test r "abc" = true /\
            ~ Glob.accepts "a.c" "abc".
Proof.
  eexists. split; [vm_compute; reflexivity|]. split; [vm_compute; reflexivity|].
  unfold Glob.accepts. cbn. intros (rest & E & rest' & E' & _).
  injection E as <-. discriminate E'.
Qed.

(** C1. Filter evaluation. The event registered by
    [update("/items/*", h, {status: "ok*"})] does not select the message
    [{route: "/items/5", action: "UPDATE", data: {status: "ok-confirmed"}}],
    although [ok-confirmed] matches the pattern of [ok*]: the pattern is
    compiled from the value in the message, and the value of the filter
    is the candidate (with the two texts exchanged the handler runs). A
    message without data is not selected; a message whose data lacks the
    key makes [shouldEventExecute], and [dispatch] with it, throw a
    TypeError. *)
Theorem filter_pattern_comes_from_the_message :
  matches "ok*" "ok-confirmed" = Normal true /\
  (exists evt,
     Router.events (snd Scenario.items_registered) = [evt] /\
     Event.filters evt = Scenario.items_filters /\
     Router.shouldEventExecute Scenario.confirmed evt = Normal false /\
     Router.shouldEventExecute Scenario.no_data evt = Normal false /\
     Router.shouldEventExecute Scenario.no_status evt
       = Throw (type_error "Cannot read properties of undefined (reading 'toString')")) /\
  (forall fuel,
     called_names (trace (fst (Scenario.after (Router.dispatch fuel Scenario.confirmed)
                                 Scenario.items_registered))) = [] /\
     called_names (trace (fst (Scenario.after (Router.dispatch fuel Scenario.swapped)
                                 Scenario.swapped_registered))) = ["onItem"] /\
     Scenario.result_of (Router.dispatch fuel Scenario.no_status) Scenario.items_registered
       = Throw (type_error "Cannot read properties of undefined (reading 'toString')")).
Proof.
  split; [vm_compute; reflexivity|].
  split; [eexists; repeat split; vm_compute; reflexivity|].
  intros fuel. repeat split; vm_compute; reflexivity.
Qed.

(** C3. Flush on open. A message [JSON.stringify] rejects waits in the
    queue; when the socket opens, [flush] never returns: each failed
    [send] appends the message to the array the loop is reading, so the
    loop meets it again, and the assignment that empties the queue is not
    reached. *)
Theorem flush_retries_without_end :
  Scenario.queue_of Scenario.ledger_waiting = [Scenario.ledger] /\
  Scenario.socket_state Scenario.ledger_waiting = Some Browser.OPEN /\
  Scenario.socket_onopen Scenario.ledger_waiting = Some ConnectionHandler.flush_bound /\
  forall fuel,
    Router.opened fuel (fst Scenario.ledger_waiting) (snd Scenario.ledger_waiting) = None.
Proof.
  repeat split; try (vm_compute; reflexivity).
  intros fuel. unfold Router.opened.
  change (ConnectionHandler.connection (Router.connection (snd Scenario.ledger_waiting)))
    with (Some (ConnectionHandler.mkWebSocket (Browser.mk Scenario.url Browser.OPEN)
                  (Some ConnectionHandler.flush_bound)
                  (Some ConnectionHandler.reconnect_bound)
                  (Some ConnectionHandler.dispatch_bound))).
  cbn [ConnectionHandler.onopen].
  rewrite (flush_stuck fuel _ _ 0 0); reflexivity.
Qed.

(** C4. Deferred ordering. [executeLast] throws a ReferenceError before
    it has moved anything, for every builder and every router. With A,
    B, C registered in this order and [executeLast] called on B (its
    error swallowed), the deferred collection is empty and a message all
    three match runs A, B, C. When the error is not swallowed, the
    registration stops there. *)
Theorem executeLast_moves_nothing :
  (forall (Sock : Type) b h (r : Router.t Sock),
     Router.builder_executeLast b h r
     = (Throw (Router.reference_error "lastEvents"), h, r)) /\
  Router.lastEvents (snd Scenario.abc_registered) = [] /\
  (forall fuel,
     called_names (trace (fst (Scenario.after (Router.dispatch fuel Scenario.chat)
                                 Scenario.abc_registered))) = ["A"; "B"; "C"]) /\
  Scenario.result_of Scenario.abc_script Scenario.started
    = Throw (Router.reference_error "lastEvents").
Proof.
  split; [intros; reflexivity|]. repeat split; try intros fuel; vm_compute; reflexivity.
Qed.

(** C5. Handler failure containment. The [catch] clause of [runner]
    reads the [stack] of what was thrown before anything is sent, and a
    handler can throw [null] or [undefined]: the read throws a
    TypeError inside the [catch] clause. Whatever the handlers do, when
    the [stack] of the value thrown cannot be read, [runner] throws in
    the state in which the failing handler left the host and the router:
    it sends nothing. With the handlers [audit], [careless] (which throws
    [null]) and [notify] registered for a route and the socket open, the
    dispatch of a message for that route throws, and nothing is sent or
    queued or printed; where the second handler throws an [Error], the
    dispatch returns and one message of route [/socket/error] with the
    text of the stack goes to the socket. *)
Theorem thrown_null_leaves_dispatch :
  Router.ExceptionHandler (Value VNull)
    = Throw (type_error "Cannot read properties of null (reading 'stack')") /\
  Router.ExceptionHandler (Value VUndefined)
    = Throw (type_error "Cannot read properties of undefined (reading 'stack')") /\
  (forall (Sock : Type) (T : Transport Sock) (P : Router.Callbacks Sock)
          fuel pre f this post (p : ref) h (r : Router.t Sock) h1 r1 h2 r2 e e',
     Router.run_each pre p h r = (Normal tt, h1, r1) ->
     Router.call f this p h1 r1 = (Throw e, h2, r2) ->
     Router.stack_of e = Throw e' ->
     Router.runner fuel (pre ++ (f, this) :: post) p h r = (Throw e', h2, r2)) /\
  Scenario.socket_state Scenario.orders_careless = Some Browser.OPEN /\
  (forall fuel,
     let st := Scenario.after (Router.dispatch fuel Scenario.order) Scenario.orders_careless in
     Scenario.result_of (Router.dispatch fuel Scenario.order) Scenario.orders_careless
       = Throw (type_error "Cannot read properties of null (reading 'stack')") /\
     called_names (trace (fst st)) = ["audit"; "careless"] /\
     sent_frames (trace (fst st)) = [] /\
     Scenario.queue_of st = [] /\
     console (fst st) = []) /\
  (let st := Scenario.after (Router.dispatch Scenario.steps Scenario.order)
               Scenario.orders_registered in
   Scenario.result_of (Router.dispatch Scenario.steps Scenario.order) Scenario.orders_registered
     = Normal tt /\
   called_names (trace (fst st)) = ["audit"; "onOrder"] /\
   sent_frames (trace (fst st)) = [error_message (VStr (stack Scenario.boom))]).
Proof.
  split; [reflexivity|]. split; [reflexivity|].
  split.
  { intros Sock T P fuel pre f this post p h r h1 r1 h2 r2 e e' Hpre Hf He.
    rewrite runner_eq, run_each_app, Hpre. cbn [Router.run_each]. unfold mbind. rewrite Hf.
    unfold Router.ExceptionHandler. rewrite He. reflexivity. }
  split; [vm_compute; reflexivity|].
  split; [intros fuel; repeat split; vm_compute; reflexivity|].
  repeat split; vm_compute; reflexivity.
Qed.

(** C8. Intercept gating. An event without [action], as [intercept]
    creates it, makes [shouldEventExecute] throw a TypeError for every
    message. After [intercept("/feed", tap)], dispatching a message of
    route [/feed] throws and [tap] is not called, where the same
    registration through [on] calls it; and a handler registered with
    [on] for another route is not called any more either. *)
Theorem intercept_event_breaks_dispatch :
  (forall data id n fn filters bind,
     Router.shouldEventExecute data (Event.mk id n fn VUndefined filters bind)
     = Throw (type_error "Cannot read properties of undefined (reading 'replace')")) /\
  (exists evt, Router.events (snd Scenario.intercepting) = [evt] /\
               Event.action evt = VUndefined) /\
  (forall fuel,
     Scenario.result_of (Router.dispatch fuel Scenario.feed_message) Scenario.intercepting
       = Throw (type_error "Cannot read properties of undefined (reading 'replace')") /\
     called_names (trace (fst (Scenario.after (Router.dispatch fuel Scenario.feed_message)
                                 Scenario.intercepting))) = [] /\
     called_names (trace (fst (Scenario.after (Router.dispatch fuel Scenario.feed_message)
                                 Scenario.listening))) = ["tap"] /\
     Scenario.result_of (Router.dispatch fuel Scenario.chat) Scenario.mixed
       = Throw (type_error "Cannot read properties of undefined (reading 'replace')") /\
     called_names (trace (fst (Scenario.after (Router.dispatch fuel Scenario.chat)
                                 Scenario.mixed))) = []).
Proof.
  split; [intros; reflexivity|].
  split; [eexists; split; vm_compute; reflexivity|].
  intros fuel. repeat split; vm_compute; reflexivity.
Qed.

(** C9. Close. [close] is a method of the router: it gives the router an
    empty [messageQueue] of its own and sets an [onopen] property on the
    ConnectionHandler; the queue of the ConnectionHandler and the socket
    are left as they were, and it does not throw. So a message queued
    while the socket was connecting is still queued after [close()] (and
    after a second [close()]), the socket still has [flush] as its open
    listener, and when it opens the message is sent and the socket stays
    open. *)
Theorem close_leaves_queue_and_socket :
  (forall (Sock : Type) h (r : Router.t Sock),
     Router.close h r
     = (Normal tt, h,
        Router.set_connection
          (ConnectionHandler.set_onopen_own true (Router.connection r))
          (Router.set_messageQueue (Some []) r))) /\
  Scenario.queue_of Scenario.closed_while_connecting = [Scenario.hello] /\
  Scenario.queue_of (Scenario.after Router.close Scenario.closed_while_connecting)
    = [Scenario.hello] /\
  Scenario.socket_onopen Scenario.closed_while_connecting
    = Some ConnectionHandler.flush_bound /\
  (exists st, Scenario.opened_state 2 Scenario.closed_while_connecting = Some st /\
              sent_frames (trace (fst st)) = [Scenario.hello] /\
              Scenario.socket_state st = Some Browser.OPEN /\
              Scenario.socket_state (Scenario.after Router.close st) = Some Browser.OPEN).
Proof.
  split; [intros; reflexivity|].
  split; [vm_compute; reflexivity|].
  split; [vm_compute; reflexivity|].
  split; [vm_compute; reflexivity|].
  eexists. split; [vm_compute; reflexivity|].
  repeat split; vm_compute; reflexivity.
Qed.
(* ================================================================== *)
(** * Further statements: the connection *)
(* ================================================================== *)

Section ConnectionMore.
Context {Sock : Type} {T : Transport Sock}.
Import ConnectionHandler.

Lemma connect_times_app a b : connect_times (a ++ b) = connect_times a ++ connect_times b.
Proof. apply flat_map_app. Qed.

Lemma failing_trace_connects latency : forall more k t,
  List.length (connect_times (failing_trace latency k t more)) = more.
Proof.
  induction more as [|more IH]; intros k t; cbn; [reflexivity|].
  now rewrite IH.
Qed.

Lemma send_each_refused :
  forall (ms : list ref) (h : Host) (c : t Sock) w,
    connection c = Some w ->
    (forall frame, ws_send (handle w) frame = None) ->
    send_each ms h c = (Normal tt, h, set_messageQueue (messageQueue c ++ ms) c).
Proof.
  induction ms as [|m ms IH]; intros h c w Ew Hno.
  - cbn. unfold ret. rewrite app_nil_r. destruct c; reflexivity.
  - cbn [send_each]. unfold mbind. rewrite (send_refused m h c w Ew Hno).
    rewrite (IH h _ w); [|exact Ew|exact Hno].
    cbn. now rewrite <- app_assoc.
Qed.

(** X2. Messages sent while the socket refuses frames are all queued, in the
    order they were sent, after what was already waiting; nothing goes to
    the socket, and neither the socket nor the attempt counter changes. *)
Theorem messages_queue_in_order_while_refused
    (ms : list ref) (h : Host) (c : t Sock) w :
  connection c = Some w ->
  (forall frame, ws_send (handle w) frame = None) ->
  exists c',
    send_each ms h c = (Normal tt, h, c') /\
    messageQueue c' = messageQueue c ++ ms /\
    connection c' = Some w /\
    connectionsAttemp c' = connectionsAttemp c.
Proof.
  intros Ew Hno. exists (set_messageQueue (messageQueue c ++ ms) c).
  split; [now apply send_each_refused with (w := w)|].
  cbn. auto.
Qed.

(** X3. [flush] on a socket that takes frames (and goes on taking them), with
    a queue of messages that can be serialised: the attempt counter is
    reset, every queued message is handed to the socket, first queued
    first sent, the queue ends empty, the socket keeps its listeners and
    no timer is touched. *)
Theorem flush_replays_queue (P : Sock -> Prop) (extra : nat) (h : Host) (c : t Sock) w :
  (forall s frame, P s -> exists s', ws_send s frame = Some s' /\ P s') ->
  connection c = Some w -> P (handle w) ->
  Forall (fun m => has_bigint (content m h) = false) (messageQueue c) ->
  exists h' c' w',
    flush (S (List.length (messageQueue c)) + extra) h c = Some (Normal tt, h', c') /\
    messageQueue c' = [] /\
    connectionsAttemp c' = 0%Z /\
    connection c' = Some w' /\ P (handle w') /\
    onopen w' = onopen w /\ onclose w' = onclose w /\ onmessage w' = onmessage w /\
    timers h' = timers h /\
    trace h' = trace h ++ map (fun m => Sent (content m h)) (messageQueue c).
Proof.
  intros Hacc Ew Pw Hq. unfold flush.
  destruct (flush_loop_accepted P Hacc (List.length (messageQueue c)) extra 0 h
              (set_connectionsAttemp 0 c) w)
    as (c' & w' & A & B & C & D & F & G1 & G2 & G3); auto.
  cbn [messageQueue set_connectionsAttemp] in A. rewrite A.
  eexists _, _, w'. split; [reflexivity|]. cbn. repeat split; auto.
Qed.

(** X4. Queue, then open. Messages sent while the socket refuses frames, on
    a handler with nothing queued, are the frames the socket receives
    when it has opened and [flush] runs: all of them, in the order they
    were sent; the queue is empty afterwards. *)
Theorem queued_messages_are_replayed_on_open
    (P : Sock -> Prop) (ms : list ref) (h : Host) (c : t Sock) w (opened : Sock) :
  (forall s frame, P s -> exists s', ws_send s frame = Some s' /\ P s') ->
  connection c = Some w ->
  (forall frame, ws_send (handle w) frame = None) ->
  P opened ->
  messageQueue c = [] ->
  Forall (fun m => has_bigint (content m h) = false) ms ->
  let '(_, h1, c1) := send_each ms h c in
  let '(_, h2, c2) := socket_becomes opened h1 c1 in
  exists h3 c3,
    flush (S (List.length ms)) h2 c2 = Some (Normal tt, h3, c3) /\
    sent_frames (trace h3) = sent_frames (trace h) ++ map (fun m => content m h) ms /\
    messageQueue c3 = [] /\
    connectionsAttemp c3 = 0%Z.
Proof.
  intros Hacc Ew Hno Po Hq Hms.
  rewrite (send_each_refused ms h c w Ew Hno), Hq. cbn [app].
  unfold socket_becomes, modify. cbn [connection set_messageQueue]. rewrite Ew.
  unfold flush.
  match goal with
  | |- context [flush_loop _ 0 h ?c2] =>
      destruct (flush_loop_accepted P Hacc (List.length ms) 0 0 h c2
                  (mkWebSocket opened (onopen w) (onclose w) (onmessage w)))
        as (c3 & w3 & A & B & C & _);
        [reflexivity | exact Po | exact Hms | reflexivity |]
  end.
  cbn [messageQueue set_connection set_messageQueue set_connectionsAttemp] in A.
  rewrite Nat.add_0_r in A. rewrite A.
  eexists _, _. split; [reflexivity|]. cbn [messageQueue set_messageQueue connectionsAttemp].
  split; [|split; [reflexivity | exact C]].
  cbn [skipn trace logs]. rewrite sent_frames_app. f_equal.
  clear. unfold sent_frames.
  induction ms as [|m ms IH]; cbn; [reflexivity | now rewrite IH].
Qed.

(** X5. An opening renews the retries. Whatever the attempt counter was,
    once [flush] has run (here with nothing queued) a closure schedules a
    reconnection 1000 ms later, and a transport that then never opens
    again sees exactly ten further calls of [connect]. *)
Theorem opening_renews_the_retries
    (latency : nat -> Z) (fuel : nat) (h : Host) (c : t Sock) w :
  connection c = Some w ->
  onclose w = Some reconnect_bound ->
  messageQueue c = [] ->
  timers h = [] ->
  10 < fuel ->
  exists c0,
    flush 1 h c = Some (Normal tt, h, c0) /\
    connectionsAttemp c0 = 0%Z /\
    timers (snd (fst (closed h c0))) = [(clock h + 1000)%Z] /\
    let '(h', c') := never_opens latency 0 fuel h c0 in
    List.length (connect_times (trace h')) = List.length (connect_times (trace h)) + 10 /\
    timers h' = [] /\
    connectionsAttemp c' = 10%Z.
Proof.
  intros Ew Hw Hq Ht Hfuel.
  exists (set_messageQueue [] (set_connectionsAttemp 0 c)).
  split; [unfold flush; cbn; rewrite Hq; reflexivity|].
  split; [reflexivity|].
  split.
  { unfold closed, mbind, host_, emit, modify_host, this_.
    cbn [connection set_messageQueue set_connectionsAttemp]. rewrite Ew, Hw, reconnect_eq.
    cbn. now rewrite Ht. }
  pose proof (@never_opens_from Sock T latency 10 fuel 0 h
                (set_messageQueue [] (set_connectionsAttemp 0 c)) w)
    as (A & B & C); [exact Hfuel | exact Ew | exact Hw | exact Ht | reflexivity |].
  destruct (never_opens latency 0 fuel h (set_messageQueue [] (set_connectionsAttemp 0 c)))
    as [h' c'].
  cbn [fst snd] in A, B, C. rewrite A, connect_times_app, length_app, failing_trace_connects.
  auto.
Qed.

End ConnectionMore.


(* ================================================================== *)
(** * Further statements: patterns, selection, dispatch and hooks *)
(* ================================================================== *)

Lemma list_ascii_inj (s p : string) :
  list_ascii_of_string s = list_ascii_of_string p -> s = p.
Proof.
  intros E. rewrite <- (string_of_list_ascii_of_string s), E.
  apply string_of_list_ascii_of_string.
Qed.

Lemma literal_plain (s : string) : literal s -> Glob.plain_route s.
Proof.
  unfold literal, Glob.plain_route. intros H.
  eapply Forall_impl; [|exact H]. intros c Hc. now right.
Qed.

Lemma glob_literal : forall p l,
  Forall (fun c => Glob.syntax_character c = false) p ->
  (Glob.glob p l <-> l = p).
Proof.
  induction p as [|c p IH]; intros l Hp; cbn [Glob.glob]; [tauto|].
  inversion Hp as [|? ? Hc Hp']; subst.
  destruct (PatternFacts.syntax_character_false _ Hc) as (_ & _ & _ & _ & Hstar & _).
  rewrite Hstar. split.
  - intros (rest & -> & G). f_equal. now apply IH.
  - intros ->. exists p. split; [reflexivity|]. now apply IH.
Qed.

Lemma accepts_literal (p s : string) : literal p -> (Glob.accepts p s <-> s = p).
Proof.
  intros Hp. unfold Glob.accepts. rewrite (glob_literal _ _ Hp). split.
  - apply list_ascii_inj.
  - now intros ->.
Qed.

Lemma accepts_star (s : string) : Glob.accepts "*" s <-> one_segment s.
Proof.
  unfold Glob.accepts, one_segment. cbn. split.
  - intros (seg & rest & E & Hne & Hall & ->). rewrite app_nil_r in E.
    split; [|now rewrite E]. intros ->. cbn in E. now subst seg.
  - intros (Hne & Hall). exists (list_ascii_of_string s), []. rewrite app_nil_r.
    repeat split; auto. intros E. apply Hne. apply list_ascii_inj. now rewrite E.
Qed.

Lemma star_is_plain : Glob.plain_route "*".
Proof. repeat constructor. Qed.

(** What an event without filters decides, once its action pattern has
    compiled and the message has the three members. *)
Lemma should_without_filters (m : jsval) (evt : Event.t) ra av a d rv rs :
  routify (Event.action evt) = Normal ra ->
  truthy (Event.filters evt) = false ->
  get m "action" = Normal av -> ToString av = Normal a ->
  get m "data" = Normal d ->
  get m "route" = Normal rv -> ToString rv = Normal rs ->
  Router.shouldEventExecute m evt
  = Normal (RegExp.test ra a && RegExp.test (Event.n evt) rs).
Proof.
  intros Hra Hf Ha Hav Hd Hr Hrv.
  unfold Router.shouldEventExecute, RegExp.exec.
  rewrite Hra, Ha. cbn [rbind]. rewrite Hav. cbn [rbind].
  destruct (RegExp.test ra a); cbn [negb andb]; [|reflexivity].
  rewrite Hd. cbn [rbind]. rewrite Hf. cbn [andb]. rewrite andb_false_r. cbn [rbind].
  rewrite Hr. cbn [rbind]. rewrite Hrv. reflexivity.
Qed.

Lemma map_fresh (id : nat) (f : Event.t -> Event.t) (l : list Event.t) :
  Forall (fun e => Event.eid e < id) l ->
  map (fun e => if Nat.eqb (Event.eid e) id then f e else e) l = l.
Proof.
  induction 1 as [|e l He _ IH]; cbn; [reflexivity|].
  rewrite IH. assert (E : Nat.eqb (Event.eid e) id = false) by (apply Nat.eqb_neq; lia).
  now rewrite E.
Qed.

Lemma assoc_put (key k : string) (v : jsval) : forall (t : list (string * jsval)),
  assoc key (Router.put k v t) = if String.eqb k key then Some v else assoc key t.
Proof.
  induction t as [|[k0 x] t IH]; cbn.
  - reflexivity.
  - destruct (String.eqb k0 k) eqn:E0; cbn.
    + apply String.eqb_eq in E0; subst k0. destruct (String.eqb k key); reflexivity.
    + destruct (String.eqb k0 key) eqn:E1.
      * apply String.eqb_eq in E1; subst k0.
        rewrite String.eqb_sym in E0. now rewrite E0.
      * exact IH.
Qed.

Lemma assoc_not_in {A} (key : string) : forall (ps : list (string * A)),
  ~ In key (map fst ps) -> assoc key ps = None.
Proof.
  induction ps as [|[k x] ps IH]; cbn; intros H; [reflexivity|].
  destruct (String.eqb k key) eqn:E.
  - apply String.eqb_eq in E. tauto.
  - apply IH. tauto.
Qed.

Lemma assoc_assign : forall (props target : list (string * jsval)) key,
  NoDup (map fst props) ->
  assoc key (fold_left (fun acc kv => Router.put (fst kv) (snd kv) acc) props target)
  = match assoc key props with
    | Some v => Some v
    | None => assoc key target
    end.
Proof.
  induction props as [|[k v] props IH]; intros target key Hnd; cbn [fold_left]; [reflexivity|].
  inversion Hnd as [|? ? Hk Hnd']; subst.
  rewrite IH by assumption. cbn [fst snd assoc].
  destruct (String.eqb k key) eqn:E.
  - apply String.eqb_eq in E; subst k.
    rewrite (assoc_not_in _ _ Hk), assoc_put, String.eqb_refl. reflexivity.
  - rewrite assoc_put, E. reflexivity.
Qed.

Section RouterMore.
Context {Sock : Type} {T : Transport Sock} {P : Router.Callbacks Sock}.
Import Router.

Lemma applyToQueue_eq (r : t Sock) (evt : Event.t) (run : list bound) :
  applyToQueue r evt run = run ++ bound_handlers (ctx r) evt.
Proof. unfold applyToQueue, bound_handlers. destruct (Event.fn evt); reflexivity. Qed.

Lemma collect_selected (r : t Sock) (data : jsval) : forall evts run,
  (forall evt, In evt evts -> exists b, shouldEventExecute data evt = Normal b) ->
  collect r data evts run
  = Normal (run ++ flat_map (bound_handlers (ctx r)) (filter (selects data) evts)).
Proof.
  induction evts as [|evt evts IH]; intros run Hall.
  - cbn. now rewrite app_nil_r.
  - cbn [collect filter]. destruct (Hall evt (or_introl eq_refl)) as (b & Hb).
    unfold selects at 1. rewrite Hb. cbn [rbind].
    rewrite IH by (intros e He; apply Hall; now right).
    destruct b; [|reflexivity].
    rewrite applyToQueue_eq. cbn [flat_map]. now rewrite <- app_assoc.
Qed.

Lemma shouldTaskExecute_position (data : jsval) (task : Task.t) (position : string) :
  shouldTaskExecute data task position = Normal true -> Task.position task = position.
Proof.
  unfold shouldTaskExecute.
  destruct (String.eqb position (Task.position task)) eqn:E; cbn [negb]; [|discriminate].
  intros _. apply String.eqb_eq in E. now symmetry.
Qed.

(** A phase whose hooks leave the router and the trace alone: whatever
    they return or throw, and however long the loop is followed, what
    the phase adds to the trace are calls of registered tasks of the
    position it runs, on the default context. *)
Lemma executeTaks_from_calls : forall fuel i (m : ref) position h (r : t Sock),
  (forall task, In task (registeredTasks r) -> Task.position task = position ->
                writes_objects_only (Task.fn task)) ->
  exists res tr st,
    executeTaks_from fuel i m position h r = (res, with_store st (logs tr h), r) /\
    Forall (fun o => exists task arg,
                In task (registeredTasks r) /\ Task.position task = position /\
                o = Called (cname (Task.fn task)) (ctx r) arg) tr.
Proof.
  induction fuel as [|fuel IH]; intros i m position h r Hq.
  - exists Running, [], (store h). rewrite logs_nil, with_store_same. auto.
  - rewrite executeTaks_from_S.
    destruct (nth_error (registeredTasks r) i) as [task|] eqn:E;
      [|exists (Normal tt), [], (store h); rewrite logs_nil, with_store_same; auto].
    assert (Hin : In task (registeredTasks r)) by (eapply nth_error_In; exact E).
    destruct (shouldTaskExecute (content m h) task position) as [[|]|e| |] eqn:Hgo.
    + apply shouldTaskExecute_position in Hgo. rewrite call_eq.
      destruct (Hq task Hin Hgo (ctx r) m
                  (log (Called (cname (Task.fn task)) (ctx r) (content m h)) h) r)
        as (o & s1 & Eb).
      rewrite Eb. destruct o as [|e].
      * destruct (IH (S i) m position
                    (with_store s1 (log (Called (cname (Task.fn task)) (ctx r) (content m h)) h))
                    r Hq) as (res & tr & st & A & B).
        exists res, (Called (cname (Task.fn task)) (ctx r) (content m h) :: tr), st.
        rewrite A, with_store_step. split; [reflexivity|].
        constructor; [|exact B]. exists task, (content m h). auto.
      * exists (Throw e), [Called (cname (Task.fn task)) (ctx r) (content m h)], s1.
        split; [reflexivity|]. constructor; [|constructor].
        exists task, (content m h). auto.
    + apply IH. exact Hq.
    + exists (Throw e), [], (store h). rewrite logs_nil, with_store_same. auto.
    + exists Unmodelled, [], (store h). rewrite logs_nil, with_store_same. auto.
    + exists Running, [], (store h). rewrite logs_nil, with_store_same. auto.
Qed.

Lemma content_alloc (v : jsval) (h : Host) :
  content (List.length (store h))
    (mkHost (clock h) (timers h) (console h) (trace h) (store h ++ [v])) = v.
Proof. unfold content. cbn [store]. apply nth_middle. Qed.

End RouterMore.
(** X6. A route without any pattern character, the wildcard included, is
    compiled into a pattern that accepts that very text and no other:
    no prefix, no suffix, no other spelling. *)
Theorem literal_route_accepts_only_itself (route : string) :
  literal route ->
  exists r, routify (VStr route) = Normal r /\
            forall s, RegExp.test r s = true <-> s = route.
Proof.
  intros Hl. exists (Glob.pattern_of route).
  split; [apply PatternFacts.routify_plain; now apply literal_plain|].
  intros s. rewrite PatternFacts.pattern_of_spec. now apply accepts_literal.
Qed.

Lemma assoc_in_nodup {A} : forall (ps : list (string * A)) k v,
  NoDup (map fst ps) -> In (k, v) ps -> assoc k ps = Some v.
Proof.
  induction ps as [|[k0 v0] ps IH]; intros k v Hnd Hin; [contradiction|].
  inversion Hnd as [|? ? Hk Hnd']; subst. cbn. destruct Hin as [E | Hin].
  - injection E as -> ->. now rewrite String.eqb_refl.
  - destruct (String.eqb k0 k) eqn:E.
    + apply String.eqb_eq in E; subst k0. exfalso. apply Hk.
      change k with (fst (k, v)). now apply in_map.
    + now apply IH.
Qed.

Lemma test_literal (d f : string) :
  literal d -> RegExp.test (Glob.pattern_of d) f = String.eqb d f.
Proof.
  intros Hd. destruct (String.eqb d f) eqn:E.
  - apply String.eqb_eq in E. subst f.
    apply PatternFacts.pattern_of_spec. now apply accepts_literal.
  - apply String.eqb_neq in E.
    destruct (RegExp.test (Glob.pattern_of d) f) eqn:Ht; [|reflexivity].
    apply PatternFacts.pattern_of_spec in Ht. apply accepts_literal in Ht; [|exact Hd].
    congruence.
Qed.

Lemma applyFilters_each_literal (ds : list (string * jsval)) (F : list (string * jsval)) :
  forall (rest : list (string * string)) acc,
    (forall k f, In (k, f) rest ->
       assoc k F = Some (VStr f) /\ exists d, assoc k ds = Some (VStr d) /\ literal d) ->
    Router.applyFilters_each (VObj ds) (VObj F) (map fst rest) acc
    = Normal (acc && forallb (same_text ds) rest).
Proof.
  induction rest as [|[k f] rest IH]; intros acc Hall.
  - cbn. now rewrite andb_true_r.
  - destruct (Hall k f (or_introl eq_refl)) as (HF & d & Hd & Hl).
    cbn [map fst Router.applyFilters_each forallb].
    unfold get. cbn [own_enumerable own_length]. rewrite !app_nil_r, Hd, HF.
    cbn [rbind toString_method ToString].
    rewrite (PatternFacts.routify_plain (literal_plain _ Hl)). cbn [rbind].
    unfold RegExp.exec. cbn [ToString rbind].
    rewrite IH by (intros k' f' Hin; apply Hall; now right).
    rewrite (@test_literal d f Hl). unfold same_text at 2. cbn [fst snd]. rewrite Hd.
    destruct (String.eqb d f), acc; reflexivity.
Qed.

(** X7. Filters used for what they are documented for. When each value of
    the filter is a text and the message's data holds, for each key of
    the filter, a text without pattern characters, the filter is
    satisfied exactly when the two texts are equal for every key; no
    error is raised. *)
Theorem literal_filters_compare_for_equality
    (fs : list (string * string)) (ds : list (string * jsval)) :
  NoDup (map fst fs) ->
  (forall k f, In (k, f) fs -> exists d, assoc k ds = Some (VStr d) /\ literal d) ->
  Router.applyFilters (VObj ds) (VObj (map (fun kf => (fst kf, VStr (snd kf))) fs))
  = Normal (forallb (same_text ds) fs).
Proof.
  intros Hnd Hall. unfold Router.applyFilters, Object_keys. cbn [own_enumerable].
  rewrite map_map. cbn [fst].
  change (map (fun x : string * string => fst x) fs) with (map fst fs).
  rewrite (applyFilters_each_literal ds (map (fun kf => (fst kf, VStr (snd kf))) fs) fs true);
    [reflexivity|].
  intros k f Hin. split; [|exact (Hall k f Hin)].
  apply assoc_in_nodup.
  - rewrite map_map. exact Hnd.
  - change (k, VStr f) with ((fun kf : string * string => (fst kf, VStr (snd kf))) (k, f)).
    now apply in_map.
Qed.

(** X8. An event that declares filters does not select a message whose data
    is missing or falsy ([undefined], [null], [0], the empty text,
    [false]), and does not raise an error for it. *)
Theorem filters_need_data (m : jsval) (evt : Event.t) ra av hit d :
  routify (Event.action evt) = Normal ra ->
  get m "action" = Normal av ->
  RegExp.exec ra av = Normal hit ->
  truthy (Event.filters evt) = true ->
  get m "data" = Normal d ->
  truthy d = false ->
  Router.shouldEventExecute m evt = Normal false.
Proof.
  intros Hra Ha Hhit Hf Hd Hfalsy. unfold Router.shouldEventExecute.
  rewrite Hra, Ha. cbn [rbind]. rewrite Hhit. cbn [rbind].
  destruct hit; cbn [negb]; [|reflexivity].
  rewrite Hd. cbn [rbind]. now rewrite Hf, Hfalsy.
Qed.

Section RouterMoreStatements.
Context {Sock : Type} {T : Transport Sock} {P : Router.Callbacks Sock}.
Import Router.

(** X9. [on(route, fn)] on a route whose only pattern character is the
    wildcard appends one event to the regular collection and changes
    nothing else. That event selects a message exactly when the
    message's action, as a text, is non-empty and without [/] (the
    default action [*] is itself a pattern) and the route accepts the
    message's route; it never raises an error. *)
Theorem on_selects_by_route (route : string) (fn : handlers) (h : Host) (r : t Sock) :
  Glob.plain_route route ->
  exists evt r',
    on (VStr route) fn h r = (Normal (next_eid r), h, r') /\
    events r' = events r ++ [evt] /\ lastEvents r' = lastEvents r /\
    registeredTasks r' = registeredTasks r /\ connection r' = connection r /\
    Event.fn evt = fn /\
    forall m av a d rv rs,
      get m "action" = Normal av -> ToString av = Normal a ->
      get m "data" = Normal d ->
      get m "route" = Normal rv -> ToString rv = Normal rs ->
      exists b, shouldEventExecute m evt = Normal b /\
                (b = true <-> one_segment a /\ Glob.accepts route rs).
Proof.
  intros Hp.
  exists (Event.mk (next_eid r) (Glob.pattern_of route) fn (VStr "*") VUndefined VUndefined).
  eexists. split.
  { unfold on, mbind, lift. rewrite (PatternFacts.routify_plain Hp).
    unfold push_event, mbind, this_, modify, ret. reflexivity. }
  cbn. repeat split; try reflexivity.
  intros m av a d rv rs Ha Hav Hd Hr Hrv.
  eexists. split.
  { eapply should_without_filters; eauto.
    exact (PatternFacts.routify_plain star_is_plain). }
  cbn [Event.n]. rewrite andb_true_iff, !PatternFacts.pattern_of_spec, accepts_star. tauto.
Qed.

(** X10. The registrations with a fixed action ([delete], [update], [create],
    [request], [subscribe]), called without filters: one event is
    appended to the regular collection, the events already registered are
    left as they were, and the new event selects a message exactly when
    the message's action is the fixed action, letter for letter, and the
    route accepts the message's route. *)
Theorem fixed_action_registration_selects
    (act route : string) (fn : handlers) (filters : jsval) (h : Host) (r : t Sock) :
  literal act -> act <> "" ->
  Glob.plain_route route ->
  truthy filters = false ->
  fresh_ids r ->
  exists evt r',
    on_with (VStr act) (VStr route) fn filters h r = (Normal (next_eid r), h, r') /\
    events r' = events r ++ [evt] /\ lastEvents r' = lastEvents r /\
    registeredTasks r' = registeredTasks r /\ connection r' = connection r /\
    Event.fn evt = fn /\
    forall m av a d rv rs,
      get m "action" = Normal av -> ToString av = Normal a ->
      get m "data" = Normal d ->
      get m "route" = Normal rv -> ToString rv = Normal rs ->
      exists b, shouldEventExecute m evt = Normal b /\
                (b = true <-> a = act /\ Glob.accepts route rs).
Proof.
  intros Hl Hne Hp Hf Hfresh.
  exists (Event.mk (next_eid r) (Glob.pattern_of route) fn (VStr act) VUndefined VUndefined).
  assert (Ht : truthy (VStr act) = true).
  { cbn. destruct (String.eqb act "") eqn:E; [|reflexivity].
    apply String.eqb_eq in E. contradiction. }
  unfold fresh_ids in Hfresh. apply Forall_app in Hfresh. destruct Hfresh as (He & Hle).
  eexists. split.
  { unfold on_with, on, mbind, lift. rewrite (PatternFacts.routify_plain Hp).
    unfold push_event, mbind, this_, modify, ret, builder_action, builder_filters.
    rewrite Ht, Hf. unfold update_event, mbind, modify, ret. reflexivity. }
  cbn [events lastEvents registeredTasks connection set_events set_lastEvents set_next_eid].
  rewrite map_app, map_fresh by assumption. cbn [map Event.eid]. rewrite Nat.eqb_refl.
  repeat split; try reflexivity; [apply map_fresh; exact Hle|].
  intros m av a d rv rs Ha Hav Hd Hr Hrv.
  eexists. split.
  { eapply should_without_filters; eauto.
    exact (PatternFacts.routify_plain (literal_plain _ Hl)). }
  cbn [Event.n]. rewrite andb_true_iff, !PatternFacts.pattern_of_spec.
  rewrite (accepts_literal act a Hl). tauto.
Qed.

(** X11. [message(options)] sends a new object, the options with a route: the
    route of the options when they have one, [*] otherwise; every other
    member of the options is sent as it is. Without options the message
    is [{route: "*"}]. *)
Theorem message_defaults_the_route :
  (forall fuel (props : list (string * jsval)) (h : Host) (r : t Sock),
     NoDup (map fst props) ->
     exists v,
       message fuel (VObj props) h r = (m <- alloc v ;; send fuel m) h r /\
       get v "route"
         = Normal (match assoc "route" props with Some x => x | None => VStr "*" end) /\
       (forall key, key <> "route" -> get v key = get (VObj props) key)) /\
  (forall fuel (h : Host) (r : t Sock),
     message fuel VUndefined h r
     = (m <- alloc (VObj [("route", VStr "*")]) ;; send fuel m) h r).
Proof.
  split; [|reflexivity].
  intros fuel props h r Hnd. eexists. split; [reflexivity|].
  unfold Object_assign, get. cbn [own_enumerable own_length]. rewrite !app_nil_r. split.
  - rewrite (assoc_assign props _ _ Hnd). cbn. destruct (assoc "route" props); reflexivity.
  - intros key Hk. rewrite (assoc_assign props _ _ Hnd).
    assert (E : String.eqb "route" key = false) by (apply String.eqb_neq; congruence).
    destruct (assoc key props); [reflexivity|].
    cbn [assoc]. rewrite E. reflexivity.
Qed.

(** X12. The run-list of a dispatch, when no event raises an error while it
    is examined: the handlers of the selected regular events, in
    registration order, then those of the selected deferred events; an
    event with several handlers contributes them in their order; each
    handler is bound to the context given with [bind] when there is one
    (and it is truthy), to the router's default context otherwise. The
    list is fixed before the first handler runs, and the handlers
    receive the payload as one object. *)
Theorem dispatch_runs_selected_in_order
    (fuel : nat) (data payload : jsval) (h : Host) (r : t Sock) :
  (forall evt, In evt (events r ++ lastEvents r) ->
     exists b, shouldEventExecute data evt = Normal b) ->
  get data "data" = Normal payload ->
  dispatch fuel data h r
  = (arg <- alloc payload ;;
     runner fuel
       (flat_map (bound_handlers (ctx r))
          (filter (selects data) (events r) ++ filter (selects data) (lastEvents r)))
       arg) h r.
Proof.
  intros Hall Hp.
  assert (A : collect r data (events r) []
              = Normal (flat_map (bound_handlers (ctx r)) (filter (selects data) (events r))))
    by (apply (collect_selected r data (events r) []);
        intros e He; apply Hall, in_or_app; now left).
  rewrite (dispatch_eq fuel data h r _ _ _ A
             (collect_selected r data (lastEvents r) _
                (fun e He => Hall e (in_or_app _ _ _ (or_intror He)))) Hp).
  now rewrite flat_map_app.
Qed.

(** X14. With send tasks that leave the router and the trace alone (they
    may write the message, return or throw), the only callbacks
    [Router.send] enters are registered send tasks whose position is one
    of the two constants [send] runs, ['BEFORE'] and ['AFTER;'], called
    on the default context; a task registered at any other position is
    never called, and no inbound handler is. This holds however long the
    loops are followed. *)
Theorem send_calls_only_its_hooks (fuel : nat) (m : ref) (h : Host) (r : t Sock) :
  (forall task, In task (registeredTasks r) ->
     Task.position task = BEFORE \/ Task.position task = AFTER ->
     writes_objects_only (Task.fn task)) ->
  exists tr,
    trace (snd (fst (send fuel m h r))) = trace h ++ tr /\
    Forall (hook_call r) tr.
Proof.
  intros Hq.
  assert (Hconv : forall position tr,
            (position = BEFORE \/ position = AFTER) ->
            Forall (fun o => exists task arg,
                        In task (registeredTasks r) /\ Task.position task = position /\
                        o = Called (cname (Task.fn task)) (ctx r) arg) tr ->
            Forall (hook_call r) tr).
  { intros position tr Hpos H. eapply Forall_impl; [|exact H].
    intros o (task & arg & Hin & Hp & ->). cbn. split; [reflexivity|].
    exists task. repeat split; auto.
    destruct Hpos as [-> | ->]; [left | right]; exact Hp. }
  rewrite send_eq. unfold executeTaks.
  destruct (executeTaks_from_calls fuel 0 m BEFORE h r
              (fun task Hin Hp => Hq task Hin (or_introl Hp))) as (res1 & tr1 & st1 & E1 & B1).
  rewrite E1.
  assert (B1' := Hconv BEFORE tr1 (or_introl eq_refl) B1).
  destruct res1 as [[]|e1| |];
    try (exists tr1; cbn [fst snd trace printed with_store logs]; split; [reflexivity | exact B1']).
  assert (Hmid : exists mid c2,
             ConnectionHandler.send m (with_store st1 (logs tr1 h)) (connection r)
             = (Normal tt, logs mid (with_store st1 (logs tr1 h)), c2) /\
             Forall (hook_call r) mid).
  { destruct (connection_send_cases m (with_store st1 (logs tr1 h)) (connection r))
      as [(c' & E' & _) | E']; rewrite E'.
    - eexists [_], _. split; [reflexivity|]. repeat constructor.
    - exists []. eexists. rewrite logs_nil. split; [reflexivity | constructor]. }
  destruct Hmid as (mid & c2 & E2 & B2). rewrite E2.
  destruct (executeTaks_from_calls fuel 0 m AFTER (logs mid (with_store st1 (logs tr1 h)))
              (set_connection c2 r)
              (fun task Hin Hp => Hq task Hin (or_intror Hp))) as (res3 & tr3 & st3 & E3 & B3).
  rewrite E3, with_store_phases.
  exists (tr1 ++ mid ++ tr3). split.
  - destruct res3 as [[]|e3| |]; reflexivity.
  - repeat (apply Forall_app; split); auto.
    apply (Hconv AFTER); auto.
Qed.

(** X15. A handler failure is reported. When a handler of the run-list
    throws a value whose [stack] can be read, on a router that has no
    send hooks and whose socket takes the frame: [runner] returns
    normally, the handlers after the failing one are not entered, and
    the one thing that happens after the failure is that the message
    [{route: "/socket/error", data: {message: stack}}] goes to the
    socket; nothing is queued or printed. The handlers before the
    failure, and the failing one, may have done anything. *)
Theorem handler_failure_is_reported
    (fuel : nat) (pre post : list bound) (f : callable) (this : jsval) (p : ref)
    (h h1 h2 : Host) (r r1 r2 : t Sock) (e : thrown) (s : jsval)
    (w : ConnectionHandler.WebSocket Sock) (s' : Sock) :
  run_each pre p h r = (Normal tt, h1, r1) ->
  call f this p h1 r1 = (Throw e, h2, r2) ->
  stack_of e = Normal s ->
  has_bigint s = false ->
  registeredTasks r2 = [] ->
  ConnectionHandler.connection (connection r2) = Some w ->
  ws_send (ConnectionHandler.handle w) (error_message s) = Some s' ->
  exists h3 c3,
    runner (S fuel) (pre ++ (f, this) :: post) p h r = (Normal tt, h3, set_connection c3 r2) /\
    trace h3 = trace h2 ++ [Sent (error_message s)] /\
    console h3 = console h2 /\
    ConnectionHandler.messageQueue c3 = ConnectionHandler.messageQueue (connection r2).
Proof.
  intros Hpre Hf Hs Hb Hno Ew Es.
  rewrite runner_eq, run_each_app, Hpre. cbn [run_each]. unfold mbind at 1. rewrite Hf.
  unfold ExceptionHandler. rewrite Hs. cbn [rbind].
  unfold error. unfold mbind at 1. unfold alloc at 1.
  rewrite (send_without_hooks fuel _ _ r2 Hno). unfold on_connection.
  rewrite connection_send_eq, content_alloc. fold (error_message s).
  assert (Hb' : has_bigint (error_message s) = false) by (cbn; now rewrite Hb).
  rewrite Hb', Ew, Es.
  eexists _, _. split; [reflexivity|]. cbn. auto.
Qed.

End RouterMoreStatements.

(* ================================================================== *)
(** * The statements at work on concrete runs *)
(* ================================================================== *)

(** ** The functions of the scenarios *)








Lemma apart_writes_objects_only (task : Task.t) :
  Scenario.apart task = true -> writes_objects_only (Task.fn task).
Proof.
  unfold Scenario.apart. intros Ha this m h r. cbn [Router.body Scenario.program].
  destruct (Scenario.behaviour_of (Task.fn task)) as [|v|key v|route name];
    [| | |discriminate]; cbn [Scenario.run].
  - exists Returns, (store h). now rewrite with_store_same.
  - exists (Throws v), (store h). now rewrite with_store_same.
  - eexists Returns, _. reflexivity.
Qed.

Lemma browser_open_accepts (s : Browser.socket) (frame : jsval) :
  Browser.readyState s = Browser.OPEN ->
  exists s', ws_send s frame = Some s' /\ Browser.readyState s' = Browser.OPEN.
Proof. intros E. exists s. cbn. rewrite E. auto. Qed.

Lemma browser_connecting_refuses (frame : jsval) :
  ws_send (ConnectionHandler.handle
             (ConnectionHandler.fresh_socket (T := Browser.transport) Scenario.url)) frame
  = None.
Proof. reflexivity. Qed.

Lemma users_route_plain : Glob.plain_route "/users/*".
Proof.
  unfold Glob.plain_route. cbn [list_ascii_of_string].
  repeat (constructor; [first [left; reflexivity | right; reflexivity]|]). constructor.
Qed.

(** ** The claims *)

(** [retry_ceiling] in a browser, with closures that come 20, 25, 30, ...
    ms after each attempt and a run continued for twelve closures. *)
Lemma retry_ceiling_witness :
  10 <= 12 /\
  let '(_, h0, c0) := ConnectionHandler.new (T := Browser.transport) Scenario.url boot in
  let '(h, c) := ConnectionHandler.never_opens Scenario.latency 0 12 h0 c0 in
  List.length (connect_times (trace h)) = 10 /\
  connect_times (trace h) = [0; 1020; 2045; 3075; 4110; 5150; 6195; 7245; 8300; 9360]%Z /\
  timers h = [] /\
  ConnectionHandler.connectionsAttemp c = 10%Z.
Proof.
  assert (Hfuel : 10 <= 12) by lia.
  split; [exact Hfuel|].
  pose proof (@retry_ceiling Browser.socket Browser.transport Scenario.url
                Scenario.latency 12 Hfuel) as H.
  vm_compute in H. vm_compute. tauto.
Defined.

(** [routify_plain_route] on the route [/users/*]. *)
Lemma routify_plain_route_witness :
  Glob.plain_route "/users/*" /\
  exists r, routify (VStr "/users/*") = Normal r /\
    forall candidate, RegExp.test r candidate = true <-> Glob.accepts "/users/*" candidate.
Proof.
  split; [exact users_route_plain|].
  exact (proj1 routify_plain_route "/users/*" users_route_plain).
Defined.



(** ** The further statements *)

Lemma messages_queue_in_order_while_refused_witness :
  let st := Scenario.after (_ <- alloc Scenario.hello ;; alloc Scenario.order) Scenario.started in
  let h := fst st in
  let c := Router.connection (snd st) in
  let w := ConnectionHandler.fresh_socket (T := Browser.transport) Scenario.url in
  (ConnectionHandler.connection c = Some w /\
   forall frame, ws_send (ConnectionHandler.handle w) frame = None) /\
  exists c',
    send_each [0; 1] h c = (Normal tt, h, c') /\
    ConnectionHandler.messageQueue c' = [0; 1] /\
    map (fun m => content m h) (ConnectionHandler.messageQueue c')
    = [Scenario.hello; Scenario.order].
Proof.
  intros st h c w.
  assert (H1 : ConnectionHandler.connection c = Some w) by reflexivity.
  split; [split; [exact H1 | exact browser_connecting_refuses]|].
  destruct (messages_queue_in_order_while_refused [0; 1] h c w H1
              browser_connecting_refuses) as (c' & A & B & _).
  exists c'. split; [exact A|]. split; [exact B|]. rewrite B. reflexivity.
Defined.

Lemma flush_replays_queue_witness :
  let st := Scenario.after Scenario.socket_opens Scenario.hello_waiting in
  let h := fst st in
  let c := Router.connection (snd st) in
  let w := ConnectionHandler.mkWebSocket (Browser.mk Scenario.url Browser.OPEN)
             (Some ConnectionHandler.flush_bound) (Some ConnectionHandler.reconnect_bound)
             (Some ConnectionHandler.dispatch_bound) in
  (ConnectionHandler.connection c = Some w /\
   Browser.readyState (ConnectionHandler.handle w) = Browser.OPEN /\
   Forall (fun m => has_bigint (content m h) = false) (ConnectionHandler.messageQueue c)) /\
  exists h' c',
    ConnectionHandler.flush 2 h c = Some (Normal tt, h', c') /\
    ConnectionHandler.messageQueue c' = [] /\
    ConnectionHandler.connectionsAttemp c' = 0%Z /\
    trace h' = trace h ++ [Sent Scenario.hello].
Proof.
  intros st h c w.
  assert (H1 : ConnectionHandler.connection c = Some w) by reflexivity.
  assert (H2 : Browser.readyState (ConnectionHandler.handle w) = Browser.OPEN) by reflexivity.
  assert (H3 : Forall (fun m => has_bigint (content m h) = false)
                 (ConnectionHandler.messageQueue c))
    by (repeat constructor).
  split; [auto|].
  destruct (flush_replays_queue (fun s => Browser.readyState s = Browser.OPEN) 0 h c w
              browser_open_accepts H1 H2 H3)
    as (h' & c' & w' & A & B & C & _ & _ & _ & _ & _ & _ & L).
  exists h', c'. repeat split; [exact A | exact B | exact C | exact L].
Defined.

Lemma queued_messages_are_replayed_on_open_witness :
  let st := Scenario.after (_ <- alloc Scenario.hello ;; alloc Scenario.order) Scenario.started in
  let h := fst st in
  let c := Router.connection (snd st) in
  let w := ConnectionHandler.fresh_socket (T := Browser.transport) Scenario.url in
  let ms := [0; 1] in
  (ConnectionHandler.connection c = Some w /\
   (forall frame, ws_send (ConnectionHandler.handle w) frame = None) /\
   Browser.readyState (Browser.mk Scenario.url Browser.OPEN) = Browser.OPEN /\
   ConnectionHandler.messageQueue c = [] /\
   Forall (fun m => has_bigint (content m h) = false) ms) /\
  let '(_, h1, c1) := send_each ms h c in
  let '(_, h2, c2) :=
    ConnectionHandler.socket_becomes (Browser.mk Scenario.url Browser.OPEN) h1 c1 in
  exists h3 c3,
    ConnectionHandler.flush (S (List.length ms)) h2 c2 = Some (Normal tt, h3, c3) /\
    sent_frames (trace h3) = sent_frames (trace h) ++ map (fun m => content m h) ms /\
    ConnectionHandler.messageQueue c3 = [] /\
    ConnectionHandler.connectionsAttemp c3 = 0%Z.
Proof.
  intros st h c w ms.
  assert (H1 : ConnectionHandler.connection c = Some w) by reflexivity.
  assert (H3 : Browser.readyState (Browser.mk Scenario.url Browser.OPEN) = Browser.OPEN)
    by reflexivity.
  assert (H4 : ConnectionHandler.messageQueue c = []) by reflexivity.
  assert (H5 : Forall (fun m => has_bigint (content m h) = false) ms) by (repeat constructor).
  split; [repeat split; auto; exact browser_connecting_refuses|].
  exact (@queued_messages_are_replayed_on_open Browser.socket Browser.transport
           (fun s => Browser.readyState s = Browser.OPEN) ms h c w
           (Browser.mk Scenario.url Browser.OPEN) browser_open_accepts
           H1 browser_connecting_refuses H3 H4 H5).
Defined.

Lemma opening_renews_the_retries_witness :
  let h := fst Scenario.started in
  let c := ConnectionHandler.set_connectionsAttemp 10 (Router.connection (snd Scenario.started)) in
  let w := ConnectionHandler.fresh_socket (T := Browser.transport) Scenario.url in
  (ConnectionHandler.connection c = Some w /\
   ConnectionHandler.onclose w = Some ConnectionHandler.reconnect_bound /\
   ConnectionHandler.messageQueue c = [] /\
   timers h = [] /\
   10 < 11) /\
  exists c0,
    ConnectionHandler.flush 1 h c = Some (Normal tt, h, c0) /\
    ConnectionHandler.connectionsAttemp c0 = 0%Z /\
    timers (snd (fst (ConnectionHandler.closed h c0))) = [1000%Z].
Proof.
  intros h c w.
  assert (H1 : ConnectionHandler.connection c = Some w) by reflexivity.
  assert (H2 : ConnectionHandler.onclose w = Some ConnectionHandler.reconnect_bound)
    by reflexivity.
  assert (H3 : ConnectionHandler.messageQueue c = []) by reflexivity.
  assert (H4 : timers h = []) by reflexivity.
  assert (H5 : 10 < 11) by lia.
  split; [auto|].
  destruct (opening_renews_the_retries Scenario.latency 11 h c w H1 H2 H3 H4 H5)
    as (c0 & A & B & C & _).
  exists c0. repeat split; [exact A | exact B | exact C].
Defined.

Lemma literal_route_accepts_only_itself_witness :
  literal "/users/list" /\
  exists r, routify (VStr "/users/list") = Normal r /\
            forall s, RegExp.test r s = true <-> s = "/users/list".
Proof.
  assert (Hl : literal "/users/list") by (repeat constructor).
  split; [exact Hl | exact (literal_route_accepts_only_itself "/users/list" Hl)].
Defined.

Lemma literal_filters_compare_for_equality_witness :
  let fs := [("status", "ok"); ("kind", "item")] in
  let ds := [("kind", VStr "item"); ("status", VStr "ok"); ("id", VNum 5)] in
  (NoDup (map fst fs) /\
   forall k f, In (k, f) fs -> exists d, assoc k ds = Some (VStr d) /\ literal d) /\
  Router.applyFilters (VObj ds) (VObj [("status", VStr "ok"); ("kind", VStr "item")])
  = Normal true /\
  Router.applyFilters (VObj [("kind", VStr "item"); ("status", VStr "failed")])
    (VObj [("status", VStr "ok"); ("kind", VStr "item")])
  = Normal false.
Proof.
  intros fs ds.
  assert (Hnd : NoDup (map fst fs)).
  { repeat constructor; cbn; intuition discriminate. }
  assert (Hall : forall k f, In (k, f) fs ->
                   exists d, assoc k ds = Some (VStr d) /\ literal d).
  { intros k f [E | [E | []]]; injection E as <- <-;
      (eexists; split; [reflexivity | repeat constructor]). }
  assert (Hall' : forall k f, In (k, f) fs ->
                    exists d, assoc k [("kind", VStr "item"); ("status", VStr "failed")]
                              = Some (VStr d) /\ literal d).
  { intros k f [E | [E | []]]; injection E as <- <-;
      (eexists; split; [reflexivity | repeat constructor]). }
  split; [split; assumption|].
  split.
  - exact (literal_filters_compare_for_equality fs ds Hnd Hall).
  - exact (literal_filters_compare_for_equality fs _ Hnd Hall').
Defined.

Lemma filters_need_data_witness :
  let evt := Event.mk 0 (Glob.pattern_of "/items/*") (Single (Scenario.handler "onItem"))
               (VStr "UPDATE") Scenario.items_filters VUndefined in
  (routify (Event.action evt) = Normal (Glob.pattern_of "UPDATE") /\
   get Scenario.no_data "action" = Normal (VStr "UPDATE") /\
   RegExp.exec (Glob.pattern_of "UPDATE") (VStr "UPDATE") = Normal true /\
   truthy (Event.filters evt) = true /\
   get Scenario.no_data "data" = Normal VUndefined /\
   truthy VUndefined = false) /\
  Router.shouldEventExecute Scenario.no_data evt = Normal false.
Proof.
  intros evt.
  assert (H1 : routify (Event.action evt) = Normal (Glob.pattern_of "UPDATE")) by reflexivity.
  assert (H2 : get Scenario.no_data "action" = Normal (VStr "UPDATE")) by reflexivity.
  assert (H3 : RegExp.exec (Glob.pattern_of "UPDATE") (VStr "UPDATE") = Normal true)
    by reflexivity.
  assert (H4 : truthy (Event.filters evt) = true) by reflexivity.
  assert (H5 : get Scenario.no_data "data" = Normal VUndefined) by reflexivity.
  assert (H6 : truthy VUndefined = false) by reflexivity.
  split; [repeat split; assumption|].
  exact (filters_need_data Scenario.no_data evt _ _ _ _ H1 H2 H3 H4 H5 H6).
Defined.

Lemma on_selects_by_route_witness :
  let h := fst Scenario.started in
  let r := snd Scenario.started in
  let m := Scenario.message "/users/42" "UPDATE" VNull in
  Glob.plain_route "/users/*" /\
  exists evt r',
    Router.on (VStr "/users/*") (Single (Scenario.handler "onUser")) h r
      = (Normal 0, h, r') /\
    Router.events r' = [evt] /\
    exists b, Router.shouldEventExecute m evt = Normal b /\
              (b = true <-> one_segment "UPDATE" /\ Glob.accepts "/users/*" "/users/42").
Proof.
  intros h r m. split; [exact users_route_plain|].
  destruct (on_selects_by_route "/users/*" (Single (Scenario.handler "onUser")) h r
              users_route_plain)
    as (evt & r' & A & B & _ & _ & _ & _ & S).
  exists evt, r'. split; [exact A|]. split; [exact B|].
  apply (S m (VStr "UPDATE") "UPDATE" VNull (VStr "/users/42") "/users/42"); reflexivity.
Defined.

Lemma fixed_action_registration_selects_witness :
  let h := fst Scenario.started in
  let r := snd Scenario.started in
  let m := Scenario.message "/users/42" "UPDATE" VNull in
  (literal "UPDATE" /\ "UPDATE" <> "" /\ Glob.plain_route "/users/*" /\
   truthy VUndefined = false /\ fresh_ids r) /\
  exists evt r',
    Router.update (VStr "/users/*") (Single (Scenario.handler "onUser")) VUndefined h r
      = (Normal 0, h, r') /\
    Router.events r' = [evt] /\
    exists b, Router.shouldEventExecute m evt = Normal b /\
              (b = true <-> "UPDATE" = "UPDATE" /\ Glob.accepts "/users/*" "/users/42").
Proof.
  intros h r m.
  assert (H1 : literal "UPDATE") by (repeat constructor).
  assert (H2 : "UPDATE" <> "") by discriminate.
  assert (H4 : truthy VUndefined = false) by reflexivity.
  assert (H5 : fresh_ids r) by constructor.
  split; [repeat split; auto; exact users_route_plain|].
  destruct (fixed_action_registration_selects "UPDATE" "/users/*"
              (Single (Scenario.handler "onUser")) VUndefined
              h r H1 H2 users_route_plain H4 H5)
    as (evt & r' & A & B & _ & _ & _ & _ & S).
  exists evt, r'. split; [exact A|]. split; [exact B|].
  apply (S m (VStr "UPDATE") "UPDATE" VNull (VStr "/users/42") "/users/42"); reflexivity.
Defined.

Lemma message_defaults_the_route_witness :
  let h := fst Scenario.started in
  let r := snd Scenario.started in
  let props := [("action", VStr "PING"); ("data", VNum 1)] in
  NoDup (map fst props) /\
  exists v,
    Router.message Scenario.steps (VObj props) h r
      = (m <- alloc v ;; Router.send Scenario.steps m) h r /\
    get v "route" = Normal (VStr "*") /\
    get v "action" = Normal (VStr "PING").
Proof.
  intros h r props.
  assert (Hnd : NoDup (map fst props)).
  { repeat constructor; cbn; intuition discriminate. }
  split; [exact Hnd|].
  destruct (proj1 (@message_defaults_the_route Browser.socket Browser.transport
                     Scenario.program) Scenario.steps props h r Hnd)
    as (v & A & B & C).
  exists v. split; [exact A|]. split; [exact B|].
  rewrite (C "action"); [reflexivity | discriminate].
Defined.

Lemma growing_events_answer :
  forall evt,
    In evt (Router.events (snd Scenario.orders_growing)
            ++ Router.lastEvents (snd Scenario.orders_growing)) ->
    exists b, Router.shouldEventExecute Scenario.order evt = Normal b.
Proof.
  intros evt Hin. vm_compute in Hin.
  destruct Hin as [<- | [<- | []]]; eexists; vm_compute; reflexivity.
Qed.

(** [dispatch_runs_selected_in_order] with a first handler, [enlist],
    that registers a handler [late] for the same route when it runs: the
    run-list of this dispatch is [enlist], [notify]; [late] is in the
    table afterwards and runs from the next dispatch on. *)
Lemma dispatch_runs_selected_in_order_witness :
  let h := fst Scenario.orders_growing in
  let r := snd Scenario.orders_growing in
  let payload := VObj [("id", VNum 7)] in
  ((forall evt, In evt (Router.events r ++ Router.lastEvents r) ->
      exists b, Router.shouldEventExecute Scenario.order evt = Normal b) /\
   get Scenario.order "data" = Normal payload) /\
  Router.dispatch Scenario.steps Scenario.order h r
  = (arg <- alloc payload ;;
     Router.runner Scenario.steps
       [(Scenario.handler "enlist", VNull); (Scenario.handler "notify", VNull)] arg) h r /\
  let st := Scenario.after (Router.dispatch Scenario.steps Scenario.order)
              Scenario.orders_growing in
  called_names (trace (fst st)) = ["enlist"; "notify"] /\
  List.length (Router.events r) = 2 /\
  List.length (Router.events (snd st)) = 3 /\
  called_names (trace (fst (Scenario.after (Router.dispatch Scenario.steps Scenario.order) st)))
  = ["enlist"; "notify"; "enlist"; "notify"; "late"].
Proof.
  intros h r payload.
  assert (Hp : get Scenario.order "data" = Normal payload) by reflexivity.
  split; [split; [exact growing_events_answer | exact Hp]|].
  split.
  - exact (dispatch_runs_selected_in_order Scenario.steps Scenario.order payload h r
             growing_events_answer Hp).
  - repeat split; vm_compute; reflexivity.
Defined.

Lemma send_calls_only_its_hooks_witness :
  let st := Scenario.after (alloc Scenario.hello) Scenario.hooked_open in
  let h := fst st in
  let r := snd st in
  (forall task, In task (Router.registeredTasks r) ->
     Task.position task = BEFORE \/ Task.position task = AFTER ->
     writes_objects_only (Task.fn task)) /\
  exists tr,
    trace (snd (fst (Router.send Scenario.steps 0 h r))) = trace h ++ tr /\
    Forall (hook_call r) tr /\
    called_names tr = ["stamp"; "sign"; "count"].
Proof.
  intros st h r.
  assert (Hq : forall task, In task (Router.registeredTasks r) ->
                 Task.position task = BEFORE \/ Task.position task = AFTER ->
                 writes_objects_only (Task.fn task)).
  { assert (Ha : forallb Scenario.apart (Router.registeredTasks r) = true)
      by (vm_compute; reflexivity).
    rewrite forallb_forall in Ha.
    intros task Hin _. apply apart_writes_objects_only, Ha, Hin. }
  split; [exact Hq|].
  destruct (send_calls_only_its_hooks Scenario.steps 0 h r Hq) as (tr & A & B).
  exists tr. split; [exact A|]. split; [exact B|].
  assert (X : trace (snd (fst (Router.send Scenario.steps 0 h r)))
              = trace h ++ [Called "stamp" VNull Scenario.hello;
                            Called "sign" VNull Scenario.hello;
                            Sent Scenario.signed_hello;
                            Called "count" VNull Scenario.signed_hello])
    by (vm_compute; reflexivity).
  rewrite X in A. apply app_inv_head in A. rewrite <- A. reflexivity.
Defined.

Lemma handler_failure_is_reported_witness :
  let st := Scenario.after (alloc (VObj [("id", VNum 7)])) Scenario.orders_registered in
  let h := fst st in
  let r := snd st in
  let h1 := log (Called "audit" VNull (VObj [("id", VNum 7)])) h in
  let h2 := log (Called "onOrder" VNull (VObj [("id", VNum 7)])) h1 in
  let w := ConnectionHandler.mkWebSocket (Browser.mk Scenario.url Browser.OPEN)
             (Some ConnectionHandler.flush_bound) (Some ConnectionHandler.reconnect_bound)
             (Some ConnectionHandler.dispatch_bound) in
  let s := VStr (stack Scenario.boom) in
  (Router.run_each [(Scenario.handler "audit", VNull)] 0 h r = (Normal tt, h1, r) /\
   Router.call (Scenario.handler "onOrder") VNull 0 h1 r = (Throw Scenario.boom, h2, r) /\
   Router.stack_of Scenario.boom = Normal s /\
   has_bigint s = false /\
   Router.registeredTasks r = [] /\
   ConnectionHandler.connection (Router.connection r) = Some w /\
   ws_send (ConnectionHandler.handle w) (error_message s)
   = Some (Browser.mk Scenario.url Browser.OPEN)) /\
  exists h3 c3,
    Router.runner Scenario.steps
      ([(Scenario.handler "audit", VNull)] ++ (Scenario.handler "onOrder", VNull)
       :: [(Scenario.handler "notify", VNull)]) 0 h r
    = (Normal tt, h3, Router.set_connection c3 r) /\
    trace h3 = trace h2 ++ [Sent (error_message s)] /\
    called_names (trace h3) = ["audit"; "onOrder"].
Proof.
  intros st h r h1 h2 w s.
  assert (H1 : Router.run_each [(Scenario.handler "audit", VNull)] 0 h r = (Normal tt, h1, r))
    by reflexivity.
  assert (H2 : Router.call (Scenario.handler "onOrder") VNull 0 h1 r
               = (Throw Scenario.boom, h2, r)) by reflexivity.
  assert (H3 : Router.stack_of Scenario.boom = Normal s) by reflexivity.
  assert (H4 : has_bigint s = false) by reflexivity.
  assert (H5 : Router.registeredTasks r = []) by reflexivity.
  assert (H6 : ConnectionHandler.connection (Router.connection r) = Some w) by reflexivity.
  assert (H7 : ws_send (ConnectionHandler.handle w) (error_message s)
               = Some (Browser.mk Scenario.url Browser.OPEN)) by reflexivity.
  split; [repeat split; assumption|].
  destruct (handler_failure_is_reported 7 [(Scenario.handler "audit", VNull)]
              [(Scenario.handler "notify", VNull)] (Scenario.handler "onOrder") VNull 0
              h h1 h2 r r r Scenario.boom s w (Browser.mk Scenario.url Browser.OPEN)
              H1 H2 H3 H4 H5 H6 H7) as (h3 & c3 & A & B & _).
  exists h3, c3. split; [exact A|]. split; [exact B|]. rewrite B. reflexivity.
Defined.
